(** * The genomics_ood dataset adapter

    A shallow embedding of [tensorflow_datasets/structured/genomics_ood.py]:
    the split table built by [_split_generators] and the row generator
    [_generate_examples], together with the parts of the Python run time the
    generator runs on: line iteration over a [GFile], the [csv.reader]
    state machine in the dialect the source selects
    ([csv.DictReader(f, delimiter='\t')], i.e. the excel dialect with a tab
    as delimiter), [csv.DictReader] and insertion-ordered dictionaries. *)

From Stdlib Require Import Ascii String List NArith Arith Lia Bool Permutation.
Import ListNotations.

(** ** Text *)

(** A character is a Unicode code point, and a decoded Python [str] is a
    list of characters.  The file system below holds the decoded text of
    each file: the development covers the files that are valid UTF-8. *)
Definition char := N.

Definition text := list char.

(** A text given by its ASCII characters. *)
Definition T (s : string) : text := map N_of_ascii (list_ascii_of_string s).

Definition NUL : char := 0%N.
Definition TAB : char := 9%N.
Definition LF : char := 10%N.
Definition CR : char := 13%N.
Definition SPACE : char := 32%N.
Definition DQUOTE : char := 34%N.
Definition SLASH : char := 47%N.

Definition text_eq_dec : forall a b : text, {a = b} + {a <> b} :=
  list_eq_dec N.eq_dec.

(** ** Python values and exceptions *)

(** The objects that occur as keys and values of the dictionaries the
    generator handles: [None], a [str], and the list of surplus fields that
    [DictReader] stores under [restkey]. *)
Inductive pyobj : Type :=
| PyNone
| PyStr (s : text)
| PyList (l : list text).

Definition pyobj_eq_dec : forall a b : pyobj, {a = b} + {a <> b}.
Proof.
  decide equality.
  - apply text_eq_dec.
  - apply (list_eq_dec text_eq_dec).
Defined.

(** The exceptions of the code that is modelled: the not-found error of
    [GFile], the reader's [csv.Error] and the [KeyError] of a dictionary
    lookup.  A file that is not valid UTF-8 makes [GFile] raise a decoding
    error at the line that does not decode; such files have no decoded
    text and are not covered. *)
Inductive exn : Type :=
| NotFoundError
| csv_Error (msg : string)
| KeyError (key : text).

(** How an iteration ends: exhausted, or aborted by an exception. *)
Inductive ending : Type :=
| StopIteration
| Raised (e : exn).

(** What a consumer observes of a lazy sequence: the items yielded, in
    order, and the way the iteration ended after the last of them. *)
Definition trace (A : Type) : Type := (list A * ending)%type.

(** ** Dictionaries *)

(** A Python [dict]: insertion ordered, with one binding per key. *)
Definition dict := list (pyobj * pyobj).

(** [d[k] = v] *)
Fixpoint dict_set (d : dict) (k v : pyobj) : dict :=
  match d with
  | [] => [(k, v)]
  | (k', v') :: d' =>
      if pyobj_eq_dec k k' then (k, v) :: d'
      else (k', v') :: dict_set d' k v
  end.

(** [d[k]]; [None] stands for the [KeyError]. *)
Fixpoint dict_get (d : dict) (k : pyobj) : option pyobj :=
  match d with
  | [] => None
  | (k', v') :: d' => if pyobj_eq_dec k k' then Some v' else dict_get d' k
  end.

(** [for k, v in items: d[k] = v] *)
Definition dict_update (d : dict) (items : list (pyobj * pyobj)) : dict :=
  fold_left (fun d kv => dict_set d (fst kv) (snd kv)) items d.

(** [dict(zip(keys, values))] on lists of strings *)
Definition dict_zip (keys values : list text) : dict :=
  dict_update [] (map (fun kv => (PyStr (fst kv), PyStr (snd kv)))
                      (combine keys values)).

(** ** [os.path.join] (posixpath), for two components *)

Definition startswith (c : char) (s : text) : bool :=
  match s with
  | [] => false
  | x :: _ => if N.eq_dec x c then true else false
  end.

Definition endswith (c : char) (s : text) : bool := startswith c (rev s).

Definition os_path_join (a b : text) : text :=
  if startswith SLASH b then b
  else if match a with [] => true | _ => endswith SLASH a end then a ++ b
  else a ++ SLASH :: b.

(** ** The split table *)

Definition _DOWNLOAD_URL : text :=
  T "gs://tfds-data/downloads/genomics_ood/genomics_ood.zip".

(** [tfds.core.SplitGenerator(name=..., gen_kwargs={'filename': ...})] *)
Record SplitGenerator : Type := {
  name : text;
  filename : text
}.

(** [dl_manager] is the download manager's [download_and_extract]: it maps
    the archive URL to the directory the archive was extracted to. *)
Definition _split_generators (dl_manager : text -> text) : list SplitGenerator :=
  let data_path := dl_manager _DOWNLOAD_URL in
  [ {| name := T "train";
       filename := os_path_join data_path (T "before_2011_in_tr.txt") |};
    {| name := T "validation";
       filename := os_path_join data_path (T "between_2011-2016_in_val.txt") |};
    {| name := T "test";
       filename := os_path_join data_path (T "after_2016_in_test.txt") |};
    {| name := T "validation_ood";
       filename := os_path_join data_path (T "between_2011-2016_ood_val.txt") |};
    {| name := T "test_ood";
       filename := os_path_join data_path (T "after_2016_ood_test.txt") |} ].

(** ** The declared features ([_info]) *)

Inductive feature : Type :=
| Text
| tf_int32.

Definition features : list (text * feature) :=
  [ (T "seq", Text);
    (T "label_id", tf_int32);
    (T "label_name", Text);
    (T "seq_info", Text);
    (T "domain", Text) ].

Definition supervised_keys : text * text := (T "seq", T "label_id").

(** ** Failing computations *)

Definition result (A : Type) : Type := (exn + A)%type.

Definition bind {A B : Type} (m : result A) (k : A -> result B) : result B :=
  match m with
  | inl e => inl e
  | inr a => k a
  end.

Notation "x <- m ;; k" := (bind m (fun x => k))
  (at level 61, m at next level, right associativity).

(** ** Iterating over a [GFile] opened for reading *)

(** [GFile.__next__] is [readline]: the text up to and including the next
    line feed, or what is left of the file when it has no further line
    feed.  The buffered stream that [readline] reads from leaves out every
    carriage return.  [cur] is the part of the current line read so far. *)
Fixpoint readlines_from (cur : text) (s : text) : list text :=
  match s with
  | [] => match cur with [] => [] | _ => [cur] end
  | c :: s' =>
      if N.eqb c LF then (cur ++ [c]) :: readlines_from [] s'
      else if N.eqb c CR then readlines_from cur s'
      else readlines_from (cur ++ [c]) s'
  end.

Definition GFile_lines (contents : text) : list text :=
  readlines_from [] contents.

(** The file system maps a path to the text of the file there, if any. *)
Definition filesystem := text -> option text.

(** Modelled from the spec: [tf.io.gfile.GFile] is not under src/, and what
    it does for a path without a file is taken from the specification
    (4.2, 7, 8): reading fails with a not-found error when the split is
    first enumerated, before any line is read.  For a file that is there,
    iterating the [GFile] gives its lines. *)
Definition GFile_iter (fs : filesystem) (filename : text) : trace text :=
  match fs filename with
  | None => ([], Raised NotFoundError)
  | Some contents => (GFile_lines contents, StopIteration)
  end.

(** A character that neither ends a line nor is left out of it. *)
Definition line_char (c : char) : bool :=
  negb (N.eqb c LF) && negb (N.eqb c CR).

(** ** [csv.reader] *)

Record Dialect : Type := {
  delimiter : char;
  quotechar : char;
  doublequote : bool;
  skipinitialspace : bool;
  strict : bool
}.

(** [csv.excel] with [delimiter='\t'].  The dialect has no escape character
    and quotes minimally, so the parser's escape states are never entered
    and a quote character always opens a quoted field. *)
Definition excel_tab : Dialect := {|
  delimiter := TAB;
  quotechar := DQUOTE;
  doublequote := true;
  skipinitialspace := false;
  strict := false
|}.

Inductive ParserState : Type :=
| START_RECORD
| START_FIELD
| IN_FIELD
| IN_QUOTED_FIELD
| QUOTE_IN_QUOTED_FIELD
| EAT_CRNL.

Definition ParserState_eqb (a b : ParserState) : bool :=
  match a, b with
  | START_RECORD, START_RECORD
  | START_FIELD, START_FIELD
  | IN_FIELD, IN_FIELD
  | IN_QUOTED_FIELD, IN_QUOTED_FIELD
  | QUOTE_IN_QUOTED_FIELD, QUOTE_IN_QUOTED_FIELD
  | EAT_CRNL, EAT_CRNL => true
  | _, _ => false
  end.

(** The reader object: the parser state, the fields of the record being
    read and the characters of the field being read. *)
Record ReaderObj : Type := {
  state : ParserState;
  fields : list text;
  field : text
}.

Definition set_state (st : ParserState) (self : ReaderObj) : ReaderObj :=
  {| state := st; fields := fields self; field := field self |}.

Definition parse_reset : ReaderObj :=
  {| state := START_RECORD; fields := []; field := [] |}.

Definition field_limit : N := 131072.

Definition parse_add_char (self : ReaderObj) (c : char) : result ReaderObj :=
  if (field_limit <=? N.of_nat (length (field self)))%N
  then inl (csv_Error "field larger than field limit (131072)")
  else inr {| state := state self;
              fields := fields self;
              field := field self ++ [c] |}.

Definition parse_save_field (self : ReaderObj) : ReaderObj :=
  {| state := state self;
     fields := fields self ++ [field self];
     field := [] |}.

Definition is_newline (c : char) : bool := N.eqb c LF || N.eqb c CR.

(** After the end of a field: a NUL is the end-of-line mark the reader
    feeds after each line, CR and LF are swallowed until that mark. *)
Definition after_line_end (c : char) : ParserState :=
  if N.eqb c NUL then START_RECORD else EAT_CRNL.

Section Parser.

Variable dialect : Dialect.

(** The START_FIELD case, which START_RECORD falls through to. *)
Definition start_field (self : ReaderObj) (c : char) : result ReaderObj :=
  if is_newline c || N.eqb c NUL then
    inr (set_state (after_line_end c) (parse_save_field self))
  else if N.eqb c (quotechar dialect) then
    inr (set_state IN_QUOTED_FIELD self)
  else if N.eqb c SPACE && skipinitialspace dialect then
    inr self
  else if N.eqb c (delimiter dialect) then
    inr (parse_save_field self)
  else
    self' <- parse_add_char self c ;;
    inr (set_state IN_FIELD self').

Definition parse_process_char (self : ReaderObj) (c : char)
  : result ReaderObj :=
  match state self with
  | START_RECORD =>
      if N.eqb c NUL then inr self
      else if is_newline c then inr (set_state EAT_CRNL self)
      else start_field (set_state START_FIELD self) c
  | START_FIELD => start_field self c
  | IN_FIELD =>
      if is_newline c || N.eqb c NUL then
        inr (set_state (after_line_end c) (parse_save_field self))
      else if N.eqb c (delimiter dialect) then
        inr (set_state START_FIELD (parse_save_field self))
      else parse_add_char self c
  | IN_QUOTED_FIELD =>
      if N.eqb c NUL then inr self
      else if N.eqb c (quotechar dialect) then
        if doublequote dialect
        then inr (set_state QUOTE_IN_QUOTED_FIELD self)
        else inr (set_state IN_FIELD self)
      else parse_add_char self c
  | QUOTE_IN_QUOTED_FIELD =>
      if N.eqb c (quotechar dialect) then
        self' <- parse_add_char self c ;;
        inr (set_state IN_QUOTED_FIELD self')
      else if N.eqb c (delimiter dialect) then
        inr (set_state START_FIELD (parse_save_field self))
      else if is_newline c || N.eqb c NUL then
        inr (set_state (after_line_end c) (parse_save_field self))
      else if negb (strict dialect) then
        self' <- parse_add_char self c ;;
        inr (set_state IN_FIELD self')
      else
        inl (csv_Error "delimiter expected after quotechar")
  | EAT_CRNL =>
      if is_newline c then inr self
      else if N.eqb c NUL then inr (set_state START_RECORD self)
      else inl (csv_Error "new-line character seen in unquoted field - do you need to open the file in universal-newline mode?")
  end.

(** The inner loop of [Reader_iternext]: the characters of one line, and
    then the end-of-line mark.  A NUL among the characters is an error
    (up to Python 3.10; later versions accept it as a character). *)
Fixpoint parse_line (self : ReaderObj) (line : text) : result ReaderObj :=
  match line with
  | [] => parse_process_char self NUL
  | c :: rest =>
      if N.eqb c NUL then inl (csv_Error "line contains NULL byte")
      else self' <- parse_process_char self c ;; parse_line self' rest
  end.

(** Iterating the reader over the lines of its input; [e] is how the
    input ends after [lines].  [Reader_iternext] resets the parser and
    feeds it lines until the parser is back in START_RECORD, then returns
    the fields.  When the input is exhausted it returns the fields of an
    unfinished record, if there is one, and stops otherwise; when the
    input raises an exception, that exception is passed on.  [self] is
    the parser in the middle of a record. *)
Fixpoint Reader_iter (self : ReaderObj) (lines : list text) (e : ending)
  : trace (list text) :=
  match lines with
  | [] =>
      match e with
      | Raised _ => ([], e)
      | StopIteration =>
          if negb (length (field self) =? 0)
             || ParserState_eqb (state self) IN_QUOTED_FIELD
          then ([fields (parse_save_field self)], StopIteration)
          else ([], StopIteration)
      end
  | lineobj :: rest =>
      match parse_line self lineobj with
      | inl e => ([], Raised e)
      | inr self' =>
          if ParserState_eqb (state self') START_RECORD then
            let (rows, e') := Reader_iter parse_reset rest e in
            (fields self' :: rows, e')
          else Reader_iter self' rest e
      end
  end.

Definition csv_reader (input : trace text) : trace (list text) :=
  Reader_iter parse_reset (fst input) (snd input).

End Parser.

(** ** [csv.DictReader] *)

(** The dictionary [DictReader.__next__] builds from a row: a short row
    leaves the remaining field names bound to [restval], a long row binds
    [restkey] to the surplus fields; both default to [None]. *)
Definition DictReader_row (fieldnames row : list text) : dict :=
  let d := dict_zip fieldnames row in
  let lf := length fieldnames in
  let lr := length row in
  if lf <? lr then dict_set d PyNone (PyList (skipn lf row))
  else if lr <? lf then
    dict_update d (map (fun key => (PyStr key, PyNone)) (skipn lr fieldnames))
  else d.

(** The rows after the field names: [__next__] passes over empty rows. *)
Fixpoint DictReader_rows (fieldnames : list text) (rows : list (list text))
  : list dict :=
  match rows with
  | [] => []
  | [] :: rest => DictReader_rows fieldnames rest
  | row :: rest => DictReader_row fieldnames row :: DictReader_rows fieldnames rest
  end.

(** [csv.DictReader(f, delimiter='\t')], iterated over the lines that [f]
    gives: the first row of the reader gives the field names.  Reading
    the field names passes over the end of the input only, so that an
    exception of the input or of the reader is passed on. *)
Definition DictReader (f : trace text) : trace dict :=
  match csv_reader excel_tab f with
  | ([], e) => ([], e)
  | (fieldnames :: rows, e) => (DictReader_rows fieldnames rows, e)
  end.

(** ** [_generate_examples] *)

(** [row[key]] *)
Definition getitem (row : dict) (key : text) : result pyobj :=
  match dict_get row (PyStr key) with
  | Some v => inr v
  | None => inl (KeyError key)
  end.

(** The body of the loop, up to the [yield]. *)
Definition make_example (row : dict) : result dict :=
  let example : dict := [] in
  v <- getitem row (T "seq") ;;
  let example := dict_set example (PyStr (T "seq")) v in
  v <- getitem row (T "label_id") ;;
  let example := dict_set example (PyStr (T "label_id")) v in
  v <- getitem row (T "label_name") ;;
  let example := dict_set example (PyStr (T "label_name")) v in
  v <- getitem row (T "seq_info") ;;
  let example := dict_set example (PyStr (T "seq_info")) v in
  v <- getitem row (T "domain") ;;
  let example := dict_set example (PyStr (T "domain")) v in
  inr example.

(** [for row_id, row in enumerate(reader)], from [row_id] on; [e] is how
    the reader ends after [rows]. *)
Fixpoint generate_from (row_id : nat) (rows : list dict) (e : ending)
  : trace (nat * dict) :=
  match rows with
  | [] => ([], e)
  | row :: rest =>
      match make_example row with
      | inl err => ([], Raised err)
      | inr example =>
          let (out, e') := generate_from (S row_id) rest e in
          ((row_id, example) :: out, e')
      end
  end.

(** The generator run on the lines that the opened file gives. *)
Definition generate_examples_from (f : trace text) : trace (nat * dict) :=
  let (rows, e) := DictReader f in
  generate_from 0 rows e.

(** The generator run on a file with the given text. *)
Definition generate_examples_of (contents : text) : trace (nat * dict) :=
  generate_examples_from (GFile_lines contents, StopIteration).

Definition _generate_examples (fs : filesystem) (filename : text)
  : trace (nat * dict) :=
  generate_examples_from (GFile_iter fs filename).

(** ** Tab-separated files *)

Definition COLUMNS : list text :=
  [T "seq"; T "label_id"; T "label_name"; T "seq_info"; T "domain"].

(** ['\t'.join(fs)] *)
Fixpoint join_tab (fs : list text) : text :=
  match fs with
  | [] => []
  | [f] => f
  | f :: rest => f ++ TAB :: join_tab rest
  end.

(** A line of the file: the fields separated by tabs, and a line feed.
    The line of no field at all, [tsv_line []], is the empty line. *)
Definition tsv_line (fs : list text) : text := join_tab fs ++ [LF].

(** The text of a file with the given header and rows. *)
Definition tsv_file (header : list text) (rows : list (list text)) : text :=
  concat (map tsv_line (header :: rows)).

(** A character that is neither the delimiter nor a line end nor NUL. *)
Definition plain_char (c : char) : bool :=
  negb (N.eqb c TAB || N.eqb c LF || N.eqb c CR || N.eqb c NUL).

(** A field the reader takes as it is written: made of plain characters,
    not opened by a quote character, and within the reader's field limit. *)
Definition plain_field (f : text) : bool :=
  forallb plain_char f
  && negb (startswith DQUOTE f)
  && (N.of_nat (length f) <=? field_limit)%N.

(** A row of plain fields that is not written as an empty line. *)
Definition plain_row (r : list text) : bool :=
  forallb plain_field r
  && match r with [] => false | [[]] => false | _ => true end.

(** A data row of a well-formed file: one plain field per column. *)
Definition data_row (r : list text) : bool :=
  (length r =? 5) && forallb plain_field r.

(** A well-formed file is [tsv_file header rows] for a header that names
    the five columns, in some order, and data rows of five plain fields. *)
Definition well_formed (header : list text) (rows : list (list text)) : Prop :=
  Permutation header COLUMNS /\ forallb data_row rows = true.

(** The position of a column in the header. *)
Fixpoint position (col : text) (header : list text) : option nat :=
  match header with
  | [] => None
  | h :: hs =>
      if text_eq_dec col h then Some 0 else option_map S (position col hs)
  end.

(** The text a row has in the column named [col], as a Python value:
    [None] where the row has no field for the column. *)
Definition cell (header row : list text) (col : text) : pyobj :=
  match position col header with
  | Some j =>
      match nth_error row j with
      | Some v => PyStr v
      | None => PyNone
      end
  | None => PyNone
  end.

(** The record of a row: each of the five fields bound to the row's text
    in the column of that name. *)
Definition record_of_row (header row : list text) : dict :=
  map (fun col => (PyStr col, cell header row col)) COLUMNS.

(** The pairs of a list of rows, numbered from 0. *)
Definition numbered (header : list text) (rows : list (list text))
  : list (nat * dict) :=
  combine (seq 0 (length rows)) (map (record_of_row header) rows).

(** A line of the data region: empty, or a row of plain fields. *)
Definition data_line (r : list text) : bool :=
  match r with
  | [] => true
  | _ => plain_row r
  end.

(** A row that is not an empty line. *)
Definition nonempty (r : list text) : bool :=
  match r with
  | [] => false
  | _ => true
  end.

(** The characters of a line, without the end-of-line mark. *)
Fixpoint feed (self : ReaderObj) (cs : text) : result ReaderObj :=
  match cs with
  | [] => inr self
  | c :: rest =>
      if N.eqb c NUL then inl (csv_Error "line contains NULL byte")
      else self' <- parse_process_char excel_tab self c ;; feed self' rest
  end.

(** ** Invocations *)

(** Modelled from the spec: [tf.io.gfile.GFile] is not under src/.  The
    specification (4.2, 5) gives the parser a file handle that it acquires
    for one enumeration and releases when the enumeration ends or is
    abandoned; the read cursor of the handle is the only state kept
    between reads, a handle is not restartable, and a new enumeration
    reopens the path.  Reading does not change the file. *)
Record handle : Type := {
  h_path : text;
  h_cursor : nat;
  h_released : bool
}.

(** The files, and the handles that have been acquired so far. *)
Record world : Type := {
  files : filesystem;
  handles : list handle
}.

(** Modelled from the spec: [GFile(filename)] gives a new handle, with its
    cursor at the start of the file. *)
Definition acquire (w : world) (path : text) : nat * world :=
  (length (handles w),
   {| files := files w;
      handles := handles w
                 ++ [ {| h_path := path; h_cursor := 0;
                         h_released := false |} ] |}).

Fixpoint set_cursor (hs : list handle) (h : nat) (pos : nat) : list handle :=
  match hs, h with
  | [], _ => []
  | hd :: tl, 0 =>
      {| h_path := h_path hd; h_cursor := pos;
         h_released := h_released hd |} :: tl
  | hd :: tl, S h' => hd :: set_cursor tl h' pos
  end.

Fixpoint set_released (hs : list handle) (h : nat) : list handle :=
  match hs, h with
  | [], _ => []
  | hd :: tl, 0 =>
      {| h_path := h_path hd; h_cursor := h_cursor hd;
         h_released := true |} :: tl
  | hd :: tl, S h' => hd :: set_released tl h'
  end.

(** Modelled from the spec: iterating the handle to the end of its file
    gives the lines from the cursor on and moves the cursor to the end;
    the file itself stays as it is. *)
Definition read_to_end (w : world) (h : nat) : trace text * world :=
  match nth_error (handles w) h with
  | None => (([], StopIteration), w)
  | Some hd =>
      match files w (h_path hd) with
      | None => (([], Raised NotFoundError), w)
      | Some contents =>
          ((GFile_lines (skipn (h_cursor hd) contents), StopIteration),
           {| files := files w;
              handles := set_cursor (handles w) h (length contents) |})
      end
  end.

(** Modelled from the spec: leaving the [with] block releases the
    handle. *)
Definition release (w : world) (h : nat) : world :=
  {| files := files w; handles := set_released (handles w) h |}.

(** One invocation of the generator, run to its end: [with GFile(filename)
    as f], the reader over [f], the loop. *)
Definition invoke_generate_examples (w : world) (filename : text)
  : trace (nat * dict) * world :=
  let (h, w1) := acquire w filename in
  let (f, w2) := read_to_end w1 h in
  (generate_examples_from f, release w2 h).

(** ** Sample data *)

Definition sample_path : text := T "/data/before_2011_in_tr.txt".

(** The file system with one file, at [sample_path]. *)
Definition sample_fs (contents : text) : filesystem :=
  fun path => if text_eq_dec path sample_path then Some contents else None.

Definition sample_row1 : list text :=
  [T "ACGT"; T "3"; T "Ecoli"; T "NC_000913.3:100-350"; T "in"].

Definition sample_row2 : list text :=
  [T "TTGA"; T "17"; T "Vibrio"; T "NZ_CP009467.1:7-257"; T "ood"].

(** A row of four fields: the field of the last column is missing. *)
Definition sample_short_row : list text :=
  [T "GGCA"; T "5"; T "Bacillus"; T "NC_014479.1:1-251"].

(** The header with the columns in another order. *)
Definition sample_header2 : list text :=
  [T "domain"; T "label_id"; T "seq"; T "seq_info"; T "label_name"].

(** A row given by the text it has in each column. *)
Definition sample_named_row (col : text) : text :=
  if text_eq_dec col (T "seq") then T "ACGT"
  else if text_eq_dec col (T "label_id") then T "3"
  else if text_eq_dec col (T "label_name") then T "Ecoli"
  else if text_eq_dec col (T "seq_info") then T "NC_000913.3:100-350"
  else T "in".

(** Files at [sample_path]: two data rows under the header, the same
    rows under the header in another order, and a short row between two
    full ones. *)
Definition two_rows_fs : filesystem :=
  sample_fs (tsv_file COLUMNS [sample_row1; sample_row2]).

Definition reordered_fs : filesystem :=
  sample_fs (tsv_file sample_header2 [sample_row1; sample_row2]).

Definition short_row_fs : filesystem :=
  sample_fs (tsv_file COLUMNS [sample_row1; sample_short_row; sample_row2]).

(** One row, written under two headers, in two files. *)
Definition two_orders_fs : filesystem :=
  fun path =>
    if text_eq_dec path (T "a.txt")
    then Some (tsv_file COLUMNS (map (fun r => map r COLUMNS) [sample_named_row]))
    else Some (tsv_file sample_header2
                 (map (fun r => map r sample_header2) [sample_named_row])).

(** Empty lines around and between two data rows. *)
Definition blank_lines_fs : filesystem :=
  sample_fs (tsv_file COLUMNS [[]; sample_row1; []; []; sample_row2; []]).

(** ** Other ways of writing a file *)

(** A line that ends in CR LF. *)
Definition crlf_line (fs : list text) : text := join_tab fs ++ [CR; LF].

Definition crlf_file (header : list text) (rows : list (list text)) : text :=
  concat (map crlf_line (header :: rows)).

(** A field as it is written in a file: as it is, or enclosed in quote
    characters. *)
Inductive tsv_field : Type :=
| Unquoted (s : text)
| Quoted (s : text).

Definition written (f : tsv_field) : text :=
  match f with
  | Unquoted s => s
  | Quoted s => DQUOTE :: s ++ [DQUOTE]
  end.

(** The text the field stands for. *)
Definition unquote (f : tsv_field) : text :=
  match f with
  | Unquoted s => s
  | Quoted s => s
  end.

(** A character that stands between quotes as it is: any but the quote
    character, the line feed, the carriage return and NUL. *)
Definition quoted_char (c : char) : bool :=
  negb (N.eqb c DQUOTE || N.eqb c LF || N.eqb c CR || N.eqb c NUL).

Definition valid_field (f : tsv_field) : bool :=
  match f with
  | Unquoted s => plain_field s
  | Quoted s =>
      forallb quoted_char s && (N.of_nat (length s) <=? field_limit)%N
  end.

(** A line of valid fields: empty, or not written as an empty line. *)
Definition valid_line (r : list tsv_field) : bool :=
  forallb valid_field r
  && match r with
     | [Unquoted []] => false
     | _ => true
     end.

Definition written_line (eol : text) (r : list tsv_field) : text :=
  join_tab (map written r) ++ eol.

(** A file of written lines, each ended by a line feed, under an
    unquoted header. *)
Definition written_file (header : list text) (rows : list (list tsv_field))
  : text :=
  concat (map (written_line [LF]) (map Unquoted header :: rows)).


(** The ends of a line that the reader takes for the end of a record:
    none (the last line of a file), LF, or CR LF. *)
Definition line_end (eol : text) : Prop :=
  eol = [] \/ eol = [LF] \/ eol = [CR; LF].




(** The text without its carriage returns. *)
Definition without_CR (s : text) : text :=
  filter (fun c => negb (N.eqb c CR)) s.

(** A field of exactly as many characters as the reader's field limit. *)
Definition sample_longest_field : text :=
  repeat 65%N (N.to_nat field_limit).

(** The first of the five columns that the field names lack. *)
Definition first_missing (fieldnames : list text) : option text :=
  find (fun col => if in_dec text_eq_dec col fieldnames then false else true)
       COLUMNS.

(** A file whose header lacks the domain column. *)
Definition no_domain_fs : filesystem :=
  sample_fs (tsv_file [T "seq"; T "label_id"; T "label_name"; T "seq_info"]
                      [sample_short_row; sample_short_row]).

(** A row with a quoted field that holds a tab. *)
Definition sample_quoted_row : list tsv_field :=
  [Unquoted (T "ACGT"); Unquoted (T "3");
   Quoted (T "Escherichia" ++ TAB :: T "coli");
   Unquoted (T "NC_000913.3:100-350"); Unquoted (T "in")].

(** A row with a surplus field. *)
Definition sample_long_row : list text :=
  sample_row1 ++ [T "surplus"].

(** * Properties *)

(** ** Files that are there *)

Lemma _generate_examples_present (fs : filesystem) (filename contents : text) :
  fs filename = Some contents ->
  _generate_examples fs filename = generate_examples_of contents.
Proof.
  intros H. unfold _generate_examples, generate_examples_of, GFile_iter.
  now rewrite H.
Qed.

(** ** Dictionaries *)

Lemma dict_get_set_same (d : dict) (k v : pyobj) :
  dict_get (dict_set d k v) k = Some v.
Proof.
  induction d as [|[k' v'] d IH]; simpl.
  - destruct (pyobj_eq_dec k k); congruence.
  - destruct (pyobj_eq_dec k k') as [E|E]; simpl.
    + destruct (pyobj_eq_dec k k); congruence.
    + destruct (pyobj_eq_dec k k'); congruence.
Qed.

Lemma dict_get_set_other (d : dict) (k k' v : pyobj) :
  k <> k' -> dict_get (dict_set d k v) k' = dict_get d k'.
Proof.
  intros Hne.
  induction d as [|[k0 v0] d IH]; simpl.
  - destruct (pyobj_eq_dec k' k); congruence.
  - destruct (pyobj_eq_dec k k0) as [E|E]; simpl.
    + subst k0. destruct (pyobj_eq_dec k' k); congruence.
    + destruct (pyobj_eq_dec k' k0); congruence.
Qed.

Lemma dict_update_other (items : list (pyobj * pyobj)) (d : dict) (k : pyobj) :
  ~ In k (map fst items) ->
  dict_get (dict_update d items) k = dict_get d k.
Proof.
  revert d.
  induction items as [|[k0 v0] items IH]; intros d Hnin; simpl in *.
  - reflexivity.
  - unfold dict_update in *. simpl. rewrite IH by tauto.
    apply dict_get_set_other. tauto.
Qed.

(** Looking up a field name in [dict(zip(fieldnames, row))], continued from
    a dictionary [d]: the row's field at the position of the name. *)
Lemma dict_zip_get (fieldnames : list text) :
  forall (row : list text) (d : dict) (j : nat) (col : text),
    NoDup fieldnames ->
    nth_error fieldnames j = Some col ->
    dict_get (dict_update d (map (fun kv => (PyStr (fst kv), PyStr (snd kv)))
                                 (combine fieldnames row)))
             (PyStr col)
    = match nth_error row j with
      | Some v => Some (PyStr v)
      | None => dict_get d (PyStr col)
      end.
Proof.
  induction fieldnames as [|h hs IH]; intros row d j col Hnd Hj.
  - destruct j; discriminate.
  - destruct row as [|v vs].
    + simpl. destruct j; reflexivity.
    + inversion Hnd as [|? ? Hh Hhs]; subst.
      destruct j as [|j]; simpl in Hj |- *.
      * injection Hj as ->.
        unfold dict_update in *. simpl.
        change (fold_left _ ?l ?d0) with (dict_update d0 l).
        rewrite dict_update_other.
        -- apply dict_get_set_same.
        -- rewrite map_map. simpl. intros Hin.
           apply in_map_iff in Hin. destruct Hin as [[a b] [E Hin]].
           simpl in E. injection E as ->.
           apply in_combine_l in Hin. contradiction.
      * unfold dict_update in *. simpl.
        rewrite (IH vs _ j col Hhs Hj).
        destruct (nth_error vs j); [reflexivity|].
        apply dict_get_set_other.
        intros E. injection E as ->.
        apply nth_error_In in Hj. contradiction.
Qed.

Lemma dict_restval_get (keys : list text) (d : dict) (col : text) :
  dict_get (dict_update d (map (fun key => (PyStr key, PyNone)) keys))
           (PyStr col)
  = if in_dec text_eq_dec col keys then Some PyNone else dict_get d (PyStr col).
Proof.
  revert d.
  induction keys as [|k ks IH]; intros d.
  - reflexivity.
  - unfold dict_update in *. simpl fold_left. rewrite IH.
    destruct (in_dec text_eq_dec col ks) as [Hin|Hnin];
      destruct (in_dec text_eq_dec col (k :: ks)) as [Hin'|Hnin'];
      try reflexivity.
    + exfalso. apply Hnin'. now right.
    + destruct Hin' as [->|?]; [apply dict_get_set_same | contradiction].
    + apply dict_get_set_other. intros E. injection E as ->.
      apply Hnin'. now left.
Qed.

Lemma skipn_nth_In (A : Type) (l : list A) :
  forall (n j : nat) (x : A),
    nth_error l j = Some x -> n <= j -> In x (skipn n l).
Proof.
  induction l as [|a l IH]; intros n j x Hj Hle.
  - destruct j; discriminate.
  - destruct n as [|n]; simpl.
    + apply nth_error_In in Hj. exact Hj.
    + destruct j as [|j]; [lia|]. simpl in Hj.
      apply (IH n j); [exact Hj | lia].
Qed.

Lemma skipn_nth_not_In (A : Type) (l : list A) :
  forall (n j : nat) (x : A),
    NoDup l -> nth_error l j = Some x -> j < n -> ~ In x (skipn n l).
Proof.
  induction l as [|a l IH]; intros n j x Hnd Hj Hlt.
  - destruct j; discriminate.
  - inversion Hnd as [|? ? Ha Hl]; subst.
    destruct n as [|n]; [lia|]. simpl.
    destruct j as [|j]; simpl in Hj.
    + injection Hj as ->. intros Hin. apply Ha.
      revert Hin. clear. revert l.
      induction n as [|n IHn]; intros l Hin; [exact Hin|].
      destruct l; [destruct Hin|]. right. apply IHn. exact Hin.
    + apply (IH n j); [exact Hl | exact Hj | lia].
Qed.

(** What [DictReader] binds a field name to: the row's field at the
    position of the name, or [None] when the row is too short. *)
Lemma DictReader_row_get (fieldnames row : list text) (j : nat) (col : text) :
  NoDup fieldnames ->
  nth_error fieldnames j = Some col ->
  dict_get (DictReader_row fieldnames row) (PyStr col)
  = Some match nth_error row j with
         | Some v => PyStr v
         | None => PyNone
         end.
Proof.
  intros Hnd Hj.
  assert (Hjlt : j < length fieldnames)
    by (apply nth_error_Some; congruence).
  unfold DictReader_row, dict_zip.
  destruct (length fieldnames <? length row) eqn:Hlong.
  - apply Nat.ltb_lt in Hlong.
    rewrite dict_get_set_other by discriminate.
    rewrite (dict_zip_get fieldnames row [] j col Hnd Hj).
    destruct (nth_error row j) eqn:Hr; [reflexivity|].
    apply nth_error_None in Hr. lia.
  - apply Nat.ltb_ge in Hlong.
    destruct (length row <? length fieldnames) eqn:Hshort.
    + rewrite dict_restval_get.
      destruct (in_dec text_eq_dec col (skipn (length row) fieldnames))
        as [Hin|Hnin].
      * destruct (nth_error row j) eqn:Hr; [|reflexivity].
        exfalso.
        assert (j < length row) by (apply nth_error_Some; congruence).
        exact (skipn_nth_not_In _ fieldnames (length row) j col Hnd Hj H Hin).
      * rewrite (dict_zip_get fieldnames row [] j col Hnd Hj).
        destruct (nth_error row j) eqn:Hr; [reflexivity|].
        exfalso. apply Hnin. apply nth_error_None in Hr.
        exact (skipn_nth_In _ fieldnames (length row) j col Hj Hr).
    + apply Nat.ltb_ge in Hshort.
      rewrite (dict_zip_get fieldnames row [] j col Hnd Hj).
      destruct (nth_error row j) eqn:Hr; [reflexivity|].
      apply nth_error_None in Hr. lia.
Qed.

(** ** The reader on lines of plain fields *)

Lemma plain_char_spec (c : char) :
  plain_char c = true ->
  N.eqb c TAB = false /\ N.eqb c LF = false
  /\ N.eqb c CR = false /\ N.eqb c NUL = false.
Proof.
  unfold plain_char. intros H. apply negb_true_iff in H.
  repeat (apply orb_false_iff in H; destruct H as [H ?]). auto.
Qed.

Lemma plain_field_spec (f : text) :
  plain_field f = true ->
  forallb plain_char f = true
  /\ startswith DQUOTE f = false
  /\ (N.of_nat (length f) <= field_limit)%N.
Proof.
  unfold plain_field. intros H.
  apply andb_true_iff in H. destruct H as [H Hlim].
  apply andb_true_iff in H. destruct H as [Hall Hq].
  apply negb_true_iff in Hq. apply N.leb_le in Hlim. auto.
Qed.

Lemma add_char_ok (st : ParserState) (fs : list text) (f : text) (c : char) :
  (N.of_nat (length f) < field_limit)%N ->
  parse_add_char (Build_ReaderObj st fs f) c
  = inr (Build_ReaderObj st fs (f ++ [c])).
Proof.
  intros Hlt. unfold parse_add_char. simpl.
  destruct (field_limit <=? N.of_nat (length f))%N eqn:E; [|reflexivity].
  apply N.leb_le in E. lia.
Qed.

Lemma feed_app (a b : text) :
  forall self self', feed self a = inr self' -> feed self (a ++ b) = feed self' b.
Proof.
  induction a as [|c a IH]; intros self self' H; simpl in *.
  - congruence.
  - destruct (N.eqb c NUL); [discriminate|].
    destruct (parse_process_char excel_tab self c); simpl in *;
      [discriminate | eauto].
Qed.

Lemma parse_line_feed (a b : text) :
  forall self self',
    feed self a = inr self' ->
    parse_line excel_tab self (a ++ b) = parse_line excel_tab self' b.
Proof.
  induction a as [|c a IH]; intros self self' H; simpl in *.
  - congruence.
  - destruct (N.eqb c NUL); [discriminate|].
    destruct (parse_process_char excel_tab self c); simpl in *;
      [discriminate | eauto].
Qed.

(** Inside an unquoted field, plain characters are appended. *)
Lemma feed_in_field (s : text) :
  forall (fs : list text) (f : text),
    forallb plain_char s = true ->
    (N.of_nat (length f + length s) <= field_limit)%N ->
    feed (Build_ReaderObj IN_FIELD fs f) s
    = inr (Build_ReaderObj IN_FIELD fs (f ++ s)).
Proof.
  induction s as [|c s IH]; intros fs f Hall Hlen; simpl.
  - now rewrite app_nil_r.
  - simpl in Hall. apply andb_true_iff in Hall. destruct Hall as [Hc Hs].
    destruct (plain_char_spec c Hc) as (Htab & Hlf & Hcr & Hnul).
    rewrite Hnul.
    unfold parse_process_char, is_newline. simpl state. simpl delimiter.
    rewrite Hlf, Hcr, Hnul, Htab. simpl orb. cbv iota.
    rewrite add_char_ok by (simpl in Hlen; lia).
    simpl bind. rewrite IH.
    + now rewrite <- app_assoc.
    + exact Hs.
    + rewrite length_app. simpl in *. lia.
Qed.

(** A plain field read from the start of a field. *)
Lemma feed_plain_field (f : text) (fs : list text) :
  plain_field f = true ->
  feed (Build_ReaderObj START_FIELD fs []) f
  = inr match f with
        | [] => Build_ReaderObj START_FIELD fs []
        | _ => Build_ReaderObj IN_FIELD fs f
        end.
Proof.
  intros Hf. destruct (plain_field_spec f Hf) as (Hall & Hq & Hlen).
  destruct f as [|c s]; [reflexivity|].
  simpl in Hall. apply andb_true_iff in Hall. destruct Hall as [Hc Hs].
  destruct (plain_char_spec c Hc) as (Htab & Hlf & Hcr & Hnul).
  simpl in Hq. destruct (N.eq_dec c DQUOTE) as [|Hnq]; [discriminate|].
  apply N.eqb_neq in Hnq.
  simpl feed. rewrite Hnul.
  unfold parse_process_char, start_field, is_newline.
  simpl state. simpl delimiter. simpl quotechar. simpl skipinitialspace.
  rewrite Hlf, Hcr, Hnul, Htab, Hnq, andb_false_r. simpl orb. cbv iota.
  rewrite add_char_ok by (unfold field_limit; simpl; lia).
  simpl bind. unfold set_state. simpl.
  rewrite feed_in_field.
  - reflexivity.
  - exact Hs.
  - simpl in *. lia.
Qed.

(** A plain field and the tab after it. *)
Lemma feed_field_tab (f : text) (fs : list text) :
  plain_field f = true ->
  feed (Build_ReaderObj START_FIELD fs []) (f ++ [TAB])
  = inr (Build_ReaderObj START_FIELD (fs ++ [f]) []).
Proof.
  intros Hf.
  rewrite (feed_app f [TAB] _ _ (feed_plain_field f fs Hf)).
  destruct f; reflexivity.
Qed.

(** The last plain field of a line, the line feed if the line has one, and
    the end-of-line mark. *)
Lemma parse_line_last_field (f eol : text) (fs : list text) :
  plain_field f = true ->
  eol = [] \/ eol = [LF] ->
  parse_line excel_tab (Build_ReaderObj START_FIELD fs []) (f ++ eol)
  = inr (Build_ReaderObj START_RECORD (fs ++ [f]) []).
Proof.
  intros Hf Heol.
  rewrite (parse_line_feed f eol _ _ (feed_plain_field f fs Hf)).
  destruct Heol as [-> | ->]; destruct f; reflexivity.
Qed.

(** The fields of a line, read from the start of a field. *)
Lemma parse_line_fields (r : list text) (eol : text) :
  forall fs : list text,
    r <> [] ->
    forallb plain_field r = true ->
    eol = [] \/ eol = [LF] ->
    parse_line excel_tab (Build_ReaderObj START_FIELD fs []) (join_tab r ++ eol)
    = inr (Build_ReaderObj START_RECORD (fs ++ r) []).
Proof.
  induction r as [|f r IH]; intros fs Hne Hall Heol; [congruence|].
  simpl in Hall. apply andb_true_iff in Hall. destruct Hall as [Hf Hr].
  destruct r as [|g r].
  - simpl join_tab. apply parse_line_last_field; assumption.
  - change (join_tab (f :: g :: r)) with (f ++ TAB :: join_tab (g :: r)).
    replace ((f ++ TAB :: join_tab (g :: r)) ++ eol)
      with ((f ++ [TAB]) ++ (join_tab (g :: r) ++ eol))
      by (rewrite <- !app_assoc; reflexivity).
    rewrite (parse_line_feed _ _ _ _ (feed_field_tab f fs Hf)).
    rewrite IH by (try discriminate; assumption).
    rewrite <- app_assoc. reflexivity.
Qed.

(** At the start of a record, a character that does not end the line is
    read as at the start of a field. *)
Lemma parse_line_start_record (c : char) (rest : text) :
  is_newline c = false ->
  parse_line excel_tab parse_reset (c :: rest)
  = parse_line excel_tab (Build_ReaderObj START_FIELD [] []) (c :: rest).
Proof.
  intros Hnl. simpl.
  destruct (N.eqb c NUL) eqn:Hnul; [reflexivity|].
  unfold parse_process_char. simpl state. rewrite Hnul, Hnl. reflexivity.
Qed.

Lemma plain_row_first_char (r : list text) (eol : text) :
  plain_row r = true ->
  exists c rest, join_tab r ++ eol = c :: rest /\ is_newline c = false.
Proof.
  unfold plain_row. intros H.
  apply andb_true_iff in H. destruct H as [Hall Hnb].
  destruct r as [|f r]; [discriminate|].
  simpl in Hall. apply andb_true_iff in Hall. destruct Hall as [Hf _].
  destruct (plain_field_spec f Hf) as (Hchars & _ & _).
  destruct f as [|c f].
  - destruct r as [|g r]; [discriminate|].
    exists TAB, (join_tab (g :: r) ++ eol). split; reflexivity.
  - simpl in Hchars. apply andb_true_iff in Hchars. destruct Hchars as [Hc _].
    destruct (plain_char_spec c Hc) as (_ & Hlf & Hcr & _).
    destruct r as [|g r]; eexists c, _; (split; [reflexivity|]);
      unfold is_newline; now rewrite Hlf, Hcr.
Qed.

(** The reader takes a line of plain fields apart into these fields,
    whether or not the line ends in a line feed. *)
Lemma parse_line_plain_row_eol (r : list text) (eol : text) :
  plain_row r = true ->
  eol = [] \/ eol = [LF] ->
  parse_line excel_tab parse_reset (join_tab r ++ eol)
  = inr (Build_ReaderObj START_RECORD r []).
Proof.
  intros H Heol.
  destruct (plain_row_first_char r eol H) as (c & rest & E & Hnl).
  rewrite E, parse_line_start_record by exact Hnl. rewrite <- E.
  unfold plain_row in H. apply andb_true_iff in H. destruct H as [Hall Hnb].
  apply (parse_line_fields r eol []); [|exact Hall|exact Heol].
  intros ->. discriminate.
Qed.

Lemma parse_line_plain_row (r : list text) :
  plain_row r = true ->
  parse_line excel_tab parse_reset (tsv_line r)
  = inr (Build_ReaderObj START_RECORD r []).
Proof.
  intros H. apply parse_line_plain_row_eol; [exact H | now right].
Qed.

Lemma parse_line_data_line (r : list text) :
  data_line r = true ->
  parse_line excel_tab parse_reset (tsv_line r)
  = inr (Build_ReaderObj START_RECORD r []).
Proof.
  destruct r as [|f r]; [reflexivity|].
  apply parse_line_plain_row.
Qed.

Lemma csv_reader_data_lines (rs : list (list text)) :
  forallb data_line rs = true ->
  csv_reader excel_tab (map tsv_line rs, StopIteration) = (rs, StopIteration).
Proof.
  unfold csv_reader. cbn [fst snd].
  induction rs as [|r rs IH]; intros H; [reflexivity|].
  simpl in H. apply andb_true_iff in H. destruct H as [Hr Hrs].
  simpl. rewrite (parse_line_data_line r Hr). simpl.
  rewrite (IH Hrs). reflexivity.
Qed.

(** ** The lines of a file *)

Lemma line_char_spec (c : char) :
  line_char c = true -> N.eqb c LF = false /\ N.eqb c CR = false.
Proof.
  unfold line_char. intros H. apply andb_true_iff in H.
  destruct H as [H1 H2]. apply negb_true_iff in H1. apply negb_true_iff in H2.
  auto.
Qed.

Lemma plain_char_line_char (c : char) :
  plain_char c = true -> line_char c = true.
Proof.
  intros H. destruct (plain_char_spec c H) as (_ & Hlf & Hcr & _).
  unfold line_char. now rewrite Hlf, Hcr.
Qed.

Lemma readlines_from_line (l rest : text) :
  forall cur : text,
    forallb line_char l = true ->
    readlines_from cur (l ++ LF :: rest)
    = (cur ++ l ++ [LF]) :: readlines_from [] rest.
Proof.
  induction l as [|c l IH]; intros cur H.
  - reflexivity.
  - cbn [forallb] in H. apply andb_true_iff in H. destruct H as [Hc Hl].
    destruct (line_char_spec c Hc) as [Hlf Hcr].
    cbn [app readlines_from]. rewrite Hlf, Hcr.
    rewrite IH by exact Hl. now rewrite <- app_assoc.
Qed.

Lemma join_tab_no_LF (r : list text) :
  forallb plain_field r = true ->
  forallb line_char (join_tab r) = true.
Proof.
  induction r as [|f r IH]; intros H; [reflexivity|].
  cbn [forallb] in H. apply andb_true_iff in H. destruct H as [Hf Hr].
  assert (Hfc : forallb line_char f = true).
  { destruct (plain_field_spec f Hf) as (Hall & _ & _).
    apply forallb_forall. intros c Hc.
    rewrite forallb_forall in Hall.
    apply plain_char_line_char, Hall, Hc. }
  destruct r as [|g r]; [exact Hfc|].
  change (join_tab (f :: g :: r)) with (f ++ TAB :: join_tab (g :: r)).
  rewrite forallb_app, Hfc. cbn [forallb andb].
  change (line_char TAB) with true. cbn [andb]. apply IH. exact Hr.
Qed.

Lemma data_line_fields (r : list text) :
  data_line r = true -> forallb plain_field r = true.
Proof.
  destruct r as [|f r]; [reflexivity|].
  unfold data_line, plain_row. intros H.
  apply andb_true_iff in H. tauto.
Qed.

Lemma GFile_lines_tsv (rs : list (list text)) :
  forallb data_line rs = true ->
  GFile_lines (concat (map tsv_line rs)) = map tsv_line rs.
Proof.
  unfold GFile_lines.
  induction rs as [|r rs IH]; intros H; [reflexivity|].
  simpl in H. apply andb_true_iff in H. destruct H as [Hr Hrs].
  simpl. unfold tsv_line at 1. rewrite <- app_assoc. simpl.
  rewrite readlines_from_line
    by (apply join_tab_no_LF, data_line_fields; exact Hr).
  rewrite IH by exact Hrs. reflexivity.
Qed.

(** ** Rows to records *)

Lemma position_nth (col : text) (header : list text) :
  forall j, position col header = Some j -> nth_error header j = Some col.
Proof.
  induction header as [|h hs IH]; intros j H; simpl in H; [discriminate|].
  destruct (text_eq_dec col h) as [->|Hne].
  - injection H as <-. reflexivity.
  - destruct (position col hs) as [i|]; [|discriminate].
    injection H as <-. simpl. apply IH. reflexivity.
Qed.

Lemma position_In (col : text) (header : list text) :
  In col header -> exists j, position col header = Some j.
Proof.
  induction header as [|h hs IH]; intros H; [destruct H|].
  simpl. destruct (text_eq_dec col h) as [|Hne]; [eauto|].
  destruct H as [->|H]; [congruence|].
  destruct (IH H) as [j ->]. simpl. eauto.
Qed.

Lemma position_of_nth (col : text) (header : list text) :
  forall j,
    NoDup header -> nth_error header j = Some col ->
    position col header = Some j.
Proof.
  induction header as [|h hs IH]; intros j Hnd Hj.
  - destruct j; discriminate.
  - inversion Hnd as [|? ? Hh Hhs]; subst. simpl.
    destruct j as [|j]; simpl in Hj.
    + injection Hj as ->. destruct (text_eq_dec col col); congruence.
    + destruct (text_eq_dec col h) as [->|Hne].
      * apply nth_error_In in Hj. contradiction.
      * rewrite (IH j Hhs Hj). reflexivity.
Qed.

Lemma DictReader_row_cell (header row : list text) (col : text) :
  NoDup header ->
  In col header ->
  dict_get (DictReader_row header row) (PyStr col)
  = Some (cell header row col).
Proof.
  intros Hnd Hin. unfold cell.
  destruct (position_In col header Hin) as [j Hj]. rewrite Hj.
  apply DictReader_row_get; [exact Hnd|].
  apply position_nth. exact Hj.
Qed.

Lemma make_example_row (header row : list text) :
  NoDup header ->
  incl COLUMNS header ->
  make_example (DictReader_row header row) = inr (record_of_row header row).
Proof.
  intros Hnd Hincl.
  unfold make_example, getitem.
  rewrite !DictReader_row_cell
    by (try exact Hnd; apply Hincl; simpl; tauto).
  reflexivity.
Qed.

Lemma generate_from_rows (header : list text) (rows : list (list text)) :
  forall n : nat,
    NoDup header ->
    incl COLUMNS header ->
    generate_from n (DictReader_rows header rows) StopIteration
    = (combine (seq n (length (filter nonempty rows)))
               (map (record_of_row header) (filter nonempty rows)),
       StopIteration).
Proof.
  intros n Hnd Hincl. revert n.
  induction rows as [|r rows IH]; intros n; [reflexivity|].
  destruct r as [|f r].
  - simpl. apply IH.
  - change (DictReader_rows header ((f :: r) :: rows))
      with (DictReader_row header (f :: r) :: DictReader_rows header rows).
    simpl. rewrite (make_example_row header (f :: r) Hnd Hincl).
    rewrite IH. reflexivity.
Qed.

Lemma COLUMNS_NoDup : NoDup COLUMNS.
Proof.
  repeat constructor; simpl; intros H;
    repeat (destruct H as [H|H]; [discriminate|]); exact H.
Qed.

Lemma header_NoDup (header : list text) :
  Permutation header COLUMNS -> NoDup header.
Proof.
  intros H. apply (Permutation_NoDup (Permutation_sym H)). exact COLUMNS_NoDup.
Qed.

Lemma header_incl (header : list text) :
  Permutation header COLUMNS -> incl COLUMNS header.
Proof.
  intros H c Hc. exact (Permutation_in c (Permutation_sym H) Hc).
Qed.

Lemma header_plain_row (header : list text) :
  Permutation header COLUMNS -> plain_row header = true.
Proof.
  intros H. unfold plain_row. apply andb_true_iff. split.
  - apply forallb_forall. intros c Hc.
    assert (Hall : forallb plain_field COLUMNS = true) by reflexivity.
    rewrite forallb_forall in Hall. apply Hall.
    exact (Permutation_in c H Hc).
  - apply Permutation_length in H. simpl in H.
    destruct header as [|a [|b l]]; try discriminate. destruct a; reflexivity.
Qed.

(** The generator on a file with a header naming the five columns and,
    below it, empty lines and rows of plain fields: one record per row, in
    order, numbered from 0. *)
Lemma generate_tsv_file (header : list text) (lines : list (list text)) :
  Permutation header COLUMNS ->
  forallb data_line lines = true ->
  generate_examples_of (tsv_file header lines)
  = (numbered header (filter nonempty lines), StopIteration).
Proof.
  intros Hh Hl.
  assert (Hall : forallb data_line (header :: lines) = true).
  { simpl. rewrite Hl, andb_true_r.
    pose proof (header_plain_row header Hh) as Hp.
    destruct header; [discriminate | exact Hp]. }
  unfold generate_examples_of, generate_examples_from, tsv_file, DictReader.
  rewrite (GFile_lines_tsv _ Hall), (csv_reader_data_lines _ Hall).
  rewrite generate_from_rows
    by (try apply header_NoDup; try apply header_incl; exact Hh).
  reflexivity.
Qed.

(** ** Numbered records *)

Lemma combine_seq_nth (A B : Type) (f : A -> B) (l : list A) :
  forall (n i : nat) (a : A),
    nth_error l i = Some a ->
    nth_error (combine (seq n (length l)) (map f l)) i = Some (n + i, f a).
Proof.
  induction l as [|x l IH]; intros n i a H.
  - destruct i; discriminate.
  - destruct i as [|i]; simpl in *.
    + injection H as ->. now rewrite Nat.add_0_r.
    + rewrite (IH (S n) i a H). f_equal. f_equal. lia.
Qed.

Lemma combine_seq_fst (A B : Type) (f : A -> B) (l : list A) :
  forall n : nat,
    map fst (combine (seq n (length l)) (map f l)) = seq n (length l).
Proof.
  induction l as [|x l IH]; intros n; simpl; [reflexivity|].
  now rewrite IH.
Qed.

Lemma numbered_nth (header : list text) (rows : list (list text))
      (i : nat) (row : list text) :
  nth_error rows i = Some row ->
  nth_error (numbered header rows) i = Some (i, record_of_row header row).
Proof.
  intros H. unfold numbered.
  exact (combine_seq_nth _ _ (record_of_row header) rows 0 i row H).
Qed.

Lemma numbered_ordinals (header : list text) (rows : list (list text)) :
  map fst (numbered header rows) = seq 0 (length rows).
Proof.
  apply combine_seq_fst.
Qed.

Lemma numbered_length (header : list text) (rows : list (list text)) :
  length (numbered header rows) = length rows.
Proof.
  rewrite <- (length_map fst), numbered_ordinals. apply length_seq.
Qed.

Lemma record_get (header row : list text) (col : text) :
  In col COLUMNS ->
  dict_get (record_of_row header row) (PyStr col)
  = Some (cell header row col).
Proof.
  intros H. simpl in H.
  repeat (destruct H as [<-|H]; [reflexivity|]). destruct H.
Qed.

Lemma cell_nth (header row : list text) (j : nat) (col : text) :
  NoDup header ->
  nth_error header j = Some col ->
  cell header row col
  = match nth_error row j with
    | Some v => PyStr v
    | None => PyNone
    end.
Proof.
  intros Hnd Hj. unfold cell.
  now rewrite (position_of_nth col header j Hnd Hj).
Qed.

Lemma data_row_plain (r : list text) :
  data_row r = true -> plain_row r = true.
Proof.
  unfold data_row, plain_row. intros H.
  apply andb_true_iff in H. destruct H as [Hlen Hall].
  rewrite Hall. apply Nat.eqb_eq in Hlen.
  destruct r as [|a [|b l]]; try discriminate. destruct a; reflexivity.
Qed.

Lemma plain_rows_lines (rows : list (list text)) :
  forallb plain_row rows = true ->
  forallb data_line rows = true /\ filter nonempty rows = rows.
Proof.
  induction rows as [|r rows IH]; intros H; [split; reflexivity|].
  simpl in H. apply andb_true_iff in H. destruct H as [Hr Hrs].
  destruct (IH Hrs) as [IH1 IH2].
  destruct r as [|f r]; [discriminate|].
  split.
  - simpl. simpl in Hr. now rewrite Hr, IH1.
  - simpl. now rewrite IH2.
Qed.

Lemma data_rows_plain (rows : list (list text)) :
  forallb data_row rows = true -> forallb plain_row rows = true.
Proof.
  intros H. apply forallb_forall. intros r Hr.
  rewrite forallb_forall in H. apply data_row_plain, H, Hr.
Qed.

(** The generator on a file of a header and rows of plain fields. *)
Lemma generate_plain_rows (fs : filesystem) (filename : text)
      (header : list text) (rows : list (list text)) :
  fs filename = Some (tsv_file header rows) ->
  Permutation header COLUMNS ->
  forallb plain_row rows = true ->
  _generate_examples fs filename = (numbered header rows, StopIteration).
Proof.
  intros Hfs Hh Hrows. rewrite (_generate_examples_present _ _ _ Hfs).
  destruct (plain_rows_lines rows Hrows) as [Hl Hf].
  rewrite (generate_tsv_file header rows Hh Hl), Hf. reflexivity.
Qed.

(** The record yielded for a row binds the name of each header column to
    the row's field in that column, or to [None] if the row ends before
    it. *)
Lemma yielded_field (fs : filesystem) (filename : text)
      (header : list text) (rows : list (list text))
      (i j : nat) (row : list text) (col : text) :
  fs filename = Some (tsv_file header rows) ->
  Permutation header COLUMNS ->
  forallb plain_row rows = true ->
  nth_error rows i = Some row ->
  nth_error header j = Some col ->
  exists example : dict,
    nth_error (fst (_generate_examples fs filename)) i = Some (i, example)
    /\ map fst example = map PyStr COLUMNS
    /\ dict_get example (PyStr col)
       = Some match nth_error row j with
              | Some v => PyStr v
              | None => PyNone
              end.
Proof.
  intros Hfs Hh Hrows Hi Hj.
  rewrite (generate_plain_rows fs filename header rows Hfs Hh Hrows).
  exists (record_of_row header row). simpl fst.
  split; [apply numbered_nth; exact Hi|].
  split; [reflexivity|].
  rewrite record_get
    by (apply (Permutation_in col Hh), (nth_error_In header j Hj)).
  f_equal. apply cell_nth; [apply header_NoDup; exact Hh | exact Hj].
Qed.

(** * The record parser on well-formed files *)

Lemma well_formed_plain (header : list text) (rows : list (list text)) :
  well_formed header rows ->
  Permutation header COLUMNS /\ forallb plain_row rows = true.
Proof.
  intros [Hh Hr]. split; [exact Hh | apply data_rows_plain; exact Hr].
Qed.

Lemma sample_header2_perm : Permutation sample_header2 COLUMNS.
Proof.
  unfold sample_header2, COLUMNS.
  apply Permutation_sym.
  apply (perm_trans (l' := [T "domain"; T "seq"; T "label_id";
                            T "label_name"; T "seq_info"])).
  - apply Permutation_sym, (Permutation_cons_append [_; _; _; _] (T "domain")).
  - apply perm_skip.
    apply (perm_trans (l' := [T "label_id"; T "seq"; T "label_name";
                              T "seq_info"])).
    + apply perm_swap.
    + apply perm_skip, perm_skip, perm_swap.
Qed.

(** C1: on a well-formed file of a header line and N data rows the parser
    yields exactly N pairs and then stops; the ordinals are 0..N-1, and
    the pair with ordinal i carries the record of the i-th data row: the
    header gets no ordinal. *)
Theorem parser_yields_one_pair_per_data_row
        (fs : filesystem) (filename : text)
        (header : list text) (rows : list (list text)) :
  fs filename = Some (tsv_file header rows) ->
  well_formed header rows ->
  snd (_generate_examples fs filename) = StopIteration
  /\ length (fst (_generate_examples fs filename)) = length rows
  /\ map fst (fst (_generate_examples fs filename)) = seq 0 (length rows)
  /\ forall (i : nat) (row : list text),
       nth_error rows i = Some row ->
       nth_error (fst (_generate_examples fs filename)) i
       = Some (i, record_of_row header row).
Proof.
  intros Hfs Hwf. destruct (well_formed_plain header rows Hwf) as [Hh Hr].
  rewrite (generate_plain_rows fs filename header rows Hfs Hh Hr). simpl.
  split; [reflexivity|].
  split; [apply numbered_length|].
  split; [apply numbered_ordinals|].
  intros i row Hi. apply numbered_nth. exact Hi.
Qed.

Lemma parser_yields_one_pair_per_data_row_witness :
  snd (_generate_examples two_rows_fs sample_path) = StopIteration
  /\ length (fst (_generate_examples two_rows_fs sample_path)) = 2
  /\ map fst (fst (_generate_examples two_rows_fs sample_path)) = [0; 1]
  /\ forall (i : nat) (row : list text),
       nth_error [sample_row1; sample_row2] i = Some row ->
       nth_error (fst (_generate_examples two_rows_fs sample_path)) i
       = Some (i, record_of_row COLUMNS row).
Proof.
  apply (parser_yields_one_pair_per_data_row
           two_rows_fs sample_path COLUMNS [sample_row1; sample_row2]).
  - reflexivity.
  - split; [apply Permutation_refl | reflexivity].
Defined.

(** A row written out in the order of a header from the text it has in
    each column gives the record of that text, whatever the order. *)
Lemma record_of_named_row (header : list text) (r : text -> text) :
  Permutation header COLUMNS ->
  record_of_row header (map r header)
  = map (fun col => (PyStr col, PyStr (r col))) COLUMNS.
Proof.
  intros Hh. unfold record_of_row. apply map_ext_in. intros col Hcol.
  f_equal. unfold cell.
  destruct (position_In col header (header_incl header Hh col Hcol)) as [j Hj].
  rewrite Hj. apply position_nth in Hj.
  now rewrite (map_nth_error r j header Hj).
Qed.

Lemma named_rows_plain (header : list text) (table : list (text -> text)) :
  Permutation header COLUMNS ->
  forallb (fun r => forallb (fun col => plain_field (r col)) COLUMNS) table
  = true ->
  forallb plain_row (map (fun r => map r header) table) = true.
Proof.
  intros Hh Ht. apply forallb_forall. intros row Hrow.
  apply in_map_iff in Hrow. destruct Hrow as (r & <- & Hr).
  rewrite forallb_forall in Ht. specialize (Ht r Hr).
  rewrite forallb_forall in Ht.
  unfold plain_row. apply andb_true_iff. split.
  - apply forallb_forall. intros f Hf.
    apply in_map_iff in Hf. destruct Hf as (col & <- & Hcol).
    apply Ht, (Permutation_in col Hh Hcol).
  - pose proof (Permutation_length Hh) as Hlen. simpl in Hlen.
    destruct header as [|a [|b l]]; try discriminate. simpl.
    destruct (r a); reflexivity.
Qed.

(** C5: the parser goes by the names in the header, not by the order of
    the columns: two well-formed files whose headers list the five columns
    in different orders, and whose rows carry the same text under the same
    column names, give the same sequence of pairs. *)
Theorem column_order_not_assumed
        (fs : filesystem) (filename1 filename2 : text)
        (header1 header2 : list text) (table : list (text -> text)) :
  Permutation header1 COLUMNS ->
  Permutation header2 COLUMNS ->
  forallb (fun r => forallb (fun col => plain_field (r col)) COLUMNS) table
  = true ->
  fs filename1 = Some (tsv_file header1 (map (fun r => map r header1) table)) ->
  fs filename2 = Some (tsv_file header2 (map (fun r => map r header2) table)) ->
  _generate_examples fs filename1 = _generate_examples fs filename2.
Proof.
  intros H1 H2 Ht Hf1 Hf2.
  rewrite (generate_plain_rows fs filename1 header1 _ Hf1 H1
             (named_rows_plain header1 table H1 Ht)).
  rewrite (generate_plain_rows fs filename2 header2 _ Hf2 H2
             (named_rows_plain header2 table H2 Ht)).
  f_equal. unfold numbered. rewrite !length_map, !map_map. f_equal.
  apply map_ext. intros r.
  now rewrite (record_of_named_row header1 r H1),
              (record_of_named_row header2 r H2).
Qed.

Lemma column_order_not_assumed_witness :
  _generate_examples two_orders_fs (T "a.txt")
  = _generate_examples two_orders_fs (T "b.txt").
Proof.
  apply (column_order_not_assumed
           two_orders_fs (T "a.txt") (T "b.txt") COLUMNS sample_header2
           [sample_named_row]).
  - apply Permutation_refl.
  - exact sample_header2_perm.
  - reflexivity.
  - reflexivity.
  - reflexivity.
Defined.

(** C7: the parser does not turn label_id into a number: on a well-formed
    file the label_id of the record yielded for a data row is the string
    the row has in the label_id column, unchanged, although the declared
    feature for label_id is a 32-bit integer. *)
Theorem label_id_kept_as_text
        (fs : filesystem) (filename : text)
        (header : list text) (rows : list (list text))
        (i j : nat) (row : list text) (v : text) :
  fs filename = Some (tsv_file header rows) ->
  well_formed header rows ->
  nth_error rows i = Some row ->
  nth_error header j = Some (T "label_id") ->
  nth_error row j = Some v ->
  In (T "label_id", tf_int32) features
  /\ exists example : dict,
       nth_error (fst (_generate_examples fs filename)) i = Some (i, example)
       /\ dict_get example (PyStr (T "label_id")) = Some (PyStr v).
Proof.
  intros Hfs Hwf Hi Hj Hv.
  split; [simpl; tauto|].
  destruct (well_formed_plain header rows Hwf) as [Hh Hr].
  destruct (yielded_field fs filename header rows i j row (T "label_id")
                          Hfs Hh Hr Hi Hj)
    as (example & Hnth & _ & Hget).
  rewrite Hv in Hget. exists example. auto.
Qed.

Lemma label_id_kept_as_text_witness :
  In (T "label_id", tf_int32) features
  /\ exists example : dict,
       nth_error (fst (_generate_examples two_rows_fs sample_path)) 0
       = Some (0, example)
       /\ dict_get example (PyStr (T "label_id")) = Some (PyStr (T "3")).
Proof.
  apply (label_id_kept_as_text
           two_rows_fs sample_path COLUMNS [sample_row1; sample_row2]
           0 1 sample_row1 (T "3")).
  - reflexivity.
  - split; [apply Permutation_refl | reflexivity].
  - reflexivity.
  - reflexivity.
  - reflexivity.
Defined.

(** * Rows shorter than the header *)

(** C2, as the code has it: a data row with fewer fields than the header
    raises no error.  On a file whose header names the five columns and
    whose data rows are non-empty rows of plain fields, of any length, the
    parser yields one record for every row, the short row and the rows
    after it included, with the ordinals in order, and stops normally.
    In the record of a short row every column the row has a field for
    carries the text of that field, and every column the row has no field
    for, of which there is at least one, is [None]. *)
Theorem short_row_yields_None
        (fs : filesystem) (filename : text)
        (header : list text) (rows : list (list text))
        (i : nat) (row : list text) :
  fs filename = Some (tsv_file header rows) ->
  Permutation header COLUMNS ->
  forallb plain_row rows = true ->
  nth_error rows i = Some row ->
  length row < length header ->
  snd (_generate_examples fs filename) = StopIteration
  /\ map fst (fst (_generate_examples fs filename)) = seq 0 (length rows)
  /\ exists example : dict,
       nth_error (fst (_generate_examples fs filename)) i = Some (i, example)
       /\ (forall (j : nat) (col : text),
              nth_error header j = Some col ->
              dict_get example (PyStr col)
              = Some match nth_error row j with
                     | Some v => PyStr v
                     | None => PyNone
                     end)
       /\ (exists col : text,
              In col COLUMNS /\ dict_get example (PyStr col) = Some PyNone).
Proof.
  intros Hfs Hh Hr Hi Hlen.
  rewrite (generate_plain_rows fs filename header rows Hfs Hh Hr).
  cbn [fst snd].
  split; [reflexivity|].
  split; [apply numbered_ordinals|].
  exists (record_of_row header row).
  split; [apply numbered_nth; exact Hi|].
  assert (Hget : forall (j : nat) (col : text),
             nth_error header j = Some col ->
             dict_get (record_of_row header row) (PyStr col)
             = Some match nth_error row j with
                    | Some v => PyStr v
                    | None => PyNone
                    end).
  { intros j col Hj.
    rewrite record_get
      by (apply (Permutation_in col Hh), (nth_error_In header j Hj)).
    f_equal. apply cell_nth; [apply header_NoDup; exact Hh | exact Hj]. }
  split; [exact Hget|].
  destruct (nth_error header (length row)) as [col|] eqn:Hcol.
  - exists col. split.
    + apply (Permutation_in col Hh), (nth_error_In header _ Hcol).
    + rewrite (Hget _ col Hcol).
      now rewrite (proj2 (nth_error_None row (length row)) (le_n _)).
  - apply nth_error_None in Hcol. lia.
Qed.

Lemma short_row_yields_None_witness :
  snd (_generate_examples short_row_fs sample_path) = StopIteration
  /\ map fst (fst (_generate_examples short_row_fs sample_path)) = [0; 1; 2]
  /\ exists example : dict,
       nth_error (fst (_generate_examples short_row_fs sample_path)) 1
       = Some (1, example)
       /\ (forall (j : nat) (col : text),
              nth_error COLUMNS j = Some col ->
              dict_get example (PyStr col)
              = Some match nth_error sample_short_row j with
                     | Some v => PyStr v
                     | None => PyNone
                     end)
       /\ (exists col : text,
              In col COLUMNS /\ dict_get example (PyStr col) = Some PyNone).
Proof.
  apply (short_row_yields_None
           short_row_fs sample_path
           COLUMNS [sample_row1; sample_short_row; sample_row2]
           1 sample_short_row).
  - reflexivity.
  - apply Permutation_refl.
  - reflexivity.
  - reflexivity.
  - simpl. lia.
Defined.

(** C2 fails as stated: on the file of the header, a full row, a row of
    four fields and another full row, the parser raises nothing.  It yields
    three records, the second with [None] for domain, and stops. *)
Lemma short_row_raises_nothing :
  length sample_short_row < length COLUMNS
  /\ ~ (exists out e,
          _generate_examples short_row_fs sample_path = (out, Raised e))
  /\ _generate_examples short_row_fs sample_path
     = ([ (0, record_of_row COLUMNS sample_row1);
          (1, [ (PyStr (T "seq"), PyStr (T "GGCA"));
                (PyStr (T "label_id"), PyStr (T "5"));
                (PyStr (T "label_name"), PyStr (T "Bacillus"));
                (PyStr (T "seq_info"), PyStr (T "NC_014479.1:1-251"));
                (PyStr (T "domain"), PyNone) ]);
          (2, record_of_row COLUMNS sample_row2) ],
        StopIteration).
Proof.
  split; [simpl; lia|]. split.
  - intros (out & e & H). vm_compute in H. discriminate.
  - vm_compute. reflexivity.
Qed.

(** * The split table *)

(** C4: whatever the root directory, [_split_generators] gives five splits,
    train, validation, test, validation_ood and test_ood in this order,
    each with its file name joined to the root: appended to it, after a
    slash unless the root is empty or ends in one.  The table depends on
    the download manager through the root directory only. *)
Theorem split_generators_table (dl_manager : text -> text) :
  let root := dl_manager _DOWNLOAD_URL in
  let sep := match root with
             | [] => []
             | _ => if endswith SLASH root then [] else [SLASH]
             end in
  _split_generators dl_manager
  = [ {| name := T "train";
         filename := root ++ sep ++ T "before_2011_in_tr.txt" |};
      {| name := T "validation";
         filename := root ++ sep ++ T "between_2011-2016_in_val.txt" |};
      {| name := T "test";
         filename := root ++ sep ++ T "after_2016_in_test.txt" |};
      {| name := T "validation_ood";
         filename := root ++ sep ++ T "between_2011-2016_ood_val.txt" |};
      {| name := T "test_ood";
         filename := root ++ sep ++ T "after_2016_ood_test.txt" |} ]
  /\ map filename (_split_generators dl_manager)
     = map (os_path_join root)
           [ T "before_2011_in_tr.txt"; T "between_2011-2016_in_val.txt";
             T "after_2016_in_test.txt"; T "between_2011-2016_ood_val.txt";
             T "after_2016_ood_test.txt" ]
  /\ _split_generators dl_manager = _split_generators (fun _ => root).
Proof.
  intros root sep. split; [|split; reflexivity].
  unfold _split_generators, os_path_join. fold root. subst sep.
  destruct root as [|c root']; [reflexivity|].
  destruct (endswith SLASH (c :: root')); simpl startswith; cbv iota.
  - reflexivity.
  - now rewrite <- !app_comm_cons.
Qed.

(** * Invocations and missing files *)

Lemma nth_error_snoc (A : Type) (l : list A) (x : A) :
  nth_error (l ++ [x]) (length l) = Some x.
Proof.
  rewrite nth_error_app2 by lia. now rewrite Nat.sub_diag.
Qed.

(** An invocation reads its file through a handle of its own, from the
    start: what it yields is what the generator yields on the files of
    the world. *)
Lemma invoke_yields (w : world) (filename : text) :
  fst (invoke_generate_examples w filename)
  = _generate_examples (files w) filename.
Proof.
  unfold invoke_generate_examples, acquire, read_to_end, _generate_examples,
    GFile_iter.
  cbn [handles files]. rewrite nth_error_snoc. cbn [h_path h_cursor].
  destruct (files w filename) as [contents|]; reflexivity.
Qed.

(** An invocation leaves the files as they are. *)
Lemma invoke_keeps_files (w : world) (filename : text) :
  files (snd (invoke_generate_examples w filename)) = files w.
Proof.
  unfold invoke_generate_examples, acquire, read_to_end, release.
  cbn [handles files]. rewrite nth_error_snoc. cbn [h_path h_cursor].
  destruct (files w filename) as [contents|]; reflexivity.
Qed.

(** A handle that was read to the end gives no further line: the
    sequence cannot be had a second time from the handle of a finished
    invocation. *)
Lemma drained_handle_gives_nothing (w : world) (h : nat) (hd : handle)
      (contents : text) :
  nth_error (handles w) h = Some hd ->
  files w (h_path hd) = Some contents ->
  fst (read_to_end (snd (read_to_end w h)) h) = ([], StopIteration).
Proof.
  intros Hh Hf. unfold read_to_end at 2. rewrite Hh, Hf. cbn [snd].
  unfold read_to_end. cbn [handles files].
  assert (Hup : nth_error (set_cursor (handles w) h (length contents)) h
                = Some {| h_path := h_path hd;
                          h_cursor := length contents;
                          h_released := h_released hd |}).
  { clear Hf. revert h Hh.
    induction (handles w) as [|x l IH]; intros [|h] Hh; try discriminate.
    - injection Hh as ->. reflexivity.
    - simpl. apply IH. exact Hh. }
  rewrite Hup. cbn [h_path h_cursor]. rewrite Hf.
  now rewrite skipn_all.
Qed.

(** C6: the parser is deterministic.  Two invocations on the same path
    that find the same contents there yield the same sequence and end the
    same way, whatever handles earlier invocations have left behind; an
    invocation does not change the files, so that an invocation repeated
    right away yields the same sequence again; and what an invocation
    yields is fixed by the contents of the file at the path. *)
Theorem reinvocation_yields_same_sequence
        (w w' : world) (filename : text) :
  files w filename = files w' filename ->
  fst (invoke_generate_examples w filename)
  = fst (invoke_generate_examples w' filename)
  /\ files (snd (invoke_generate_examples w filename)) = files w
  /\ fst (invoke_generate_examples
            (snd (invoke_generate_examples w filename)) filename)
     = fst (invoke_generate_examples w filename)
  /\ fst (invoke_generate_examples w filename)
     = match files w filename with
       | None => ([], Raised NotFoundError)
       | Some contents => generate_examples_of contents
       end.
Proof.
  intros H.
  rewrite !invoke_yields, invoke_keeps_files.
  unfold _generate_examples, GFile_iter, generate_examples_of.
  rewrite H. repeat split.
  destruct (files w' filename); reflexivity.
Qed.

Lemma reinvocation_yields_same_sequence_witness :
  fst (invoke_generate_examples
         {| files := two_rows_fs; handles := [] |} sample_path)
  = fst (invoke_generate_examples
           {| files := two_rows_fs;
              handles := [ {| h_path := sample_path;
                              h_cursor := 7;
                              h_released := false |} ] |}
           sample_path)
  /\ files (snd (invoke_generate_examples
                   {| files := two_rows_fs; handles := [] |} sample_path))
     = two_rows_fs
  /\ fst (invoke_generate_examples
            (snd (invoke_generate_examples
                    {| files := two_rows_fs; handles := [] |} sample_path))
            sample_path)
     = fst (invoke_generate_examples
              {| files := two_rows_fs; handles := [] |} sample_path)
  /\ fst (invoke_generate_examples
            {| files := two_rows_fs; handles := [] |} sample_path)
     = match two_rows_fs sample_path with
       | None => ([], Raised NotFoundError)
       | Some contents => generate_examples_of contents
       end.
Proof.
  apply (reinvocation_yields_same_sequence
           {| files := two_rows_fs; handles := [] |}
           {| files := two_rows_fs;
              handles := [ {| h_path := sample_path;
                              h_cursor := 7;
                              h_released := false |} ] |}
           sample_path).
  reflexivity.
Defined.

(** C8: when the file of a split is absent, enumerating the split fails
    with the not-found error before any record is yielded; a split whose
    file is there is enumerated all the same, and yields the records of
    its own file. *)
Theorem missing_file_not_found
        (fs : filesystem) (missing other : text)
        (header : list text) (rows : list (list text)) :
  fs missing = None ->
  fs other = Some (tsv_file header rows) ->
  well_formed header rows ->
  _generate_examples fs missing = ([], Raised NotFoundError)
  /\ _generate_examples fs other = (numbered header rows, StopIteration).
Proof.
  intros Hm Ho Hwf. split.
  - unfold _generate_examples, GFile_iter. rewrite Hm. reflexivity.
  - destruct (well_formed_plain header rows Hwf) as [Hh Hr].
    exact (generate_plain_rows fs other header rows Ho Hh Hr).
Qed.

Lemma missing_file_not_found_witness :
  _generate_examples two_rows_fs (T "/data/after_2016_ood_test.txt")
  = ([], Raised NotFoundError)
  /\ _generate_examples two_rows_fs sample_path
     = (numbered COLUMNS [sample_row1; sample_row2], StopIteration).
Proof.
  apply (missing_file_not_found
           two_rows_fs (T "/data/after_2016_ood_test.txt") sample_path
           COLUMNS [sample_row1; sample_row2]).
  - reflexivity.
  - reflexivity.
  - split; [apply Permutation_refl | reflexivity].
Defined.

(** * Files without data rows, and empty lines *)

Lemma readlines_from_no_LF (l : text) :
  forall cur : text,
    forallb line_char l = true ->
    readlines_from cur l
    = match cur ++ l with
      | [] => []
      | _ => [cur ++ l]
      end.
Proof.
  induction l as [|c l IH]; intros cur H.
  - cbn [readlines_from]. rewrite app_nil_r. reflexivity.
  - cbn [forallb] in H. apply andb_true_iff in H. destruct H as [Hc Hl].
    destruct (line_char_spec c Hc) as [Hlf Hcr].
    cbn [readlines_from]. rewrite Hlf, Hcr.
    rewrite IH by exact Hl. now rewrite <- app_assoc.
Qed.

(** A file of one line holds the field names and nothing to yield. *)
Lemma generate_single_line (contents line : text) (fieldnames : list text) :
  GFile_lines contents = [line] ->
  parse_line excel_tab parse_reset line
  = inr (Build_ReaderObj START_RECORD fieldnames []) ->
  generate_examples_of contents = ([], StopIteration).
Proof.
  intros Hlines Hparse.
  unfold generate_examples_of, generate_examples_from, DictReader, csv_reader.
  rewrite Hlines. simpl. rewrite Hparse. reflexivity.
Qed.

Lemma plain_fields_row_or_blank (header : list text) :
  forallb plain_field header = true ->
  plain_row header = true \/ join_tab header = [].
Proof.
  intros H. unfold plain_row. rewrite H.
  destruct header as [|f [|g r]].
  - right. reflexivity.
  - destruct f; [right | left]; reflexivity.
  - left. destruct f; reflexivity.
Qed.

(** C9: a file that consists of the header line only, with or without a
    line feed at its end, yields no record and raises no error. *)
Theorem header_only_yields_nothing
        (fs : filesystem) (filename : text) (header : list text) :
  forallb plain_field header = true ->
  fs filename = Some (tsv_line header) \/ fs filename = Some (join_tab header) ->
  _generate_examples fs filename = ([], StopIteration).
Proof.
  intros Hplain Hfs.
  assert (Hnolf := join_tab_no_LF header Hplain).
  destruct (plain_fields_row_or_blank header Hplain) as [Hrow | Hblank].
  - destruct Hfs as [Hfs | Hfs];
      rewrite (_generate_examples_present _ _ _ Hfs).
    + apply (generate_single_line _ (tsv_line header) header).
      * unfold GFile_lines, tsv_line.
        now rewrite (readlines_from_line (join_tab header) [] [] Hnolf).
      * apply parse_line_plain_row. exact Hrow.
    + destruct (plain_row_first_char header [] Hrow) as (c & rest & E & _).
      rewrite app_nil_r in E.
      apply (generate_single_line _ (join_tab header) header).
      * unfold GFile_lines.
        rewrite (readlines_from_no_LF (join_tab header) [] Hnolf).
        simpl app. now rewrite E.
      * rewrite <- (app_nil_r (join_tab header)).
        apply parse_line_plain_row_eol; [exact Hrow | now left].
  - unfold tsv_line in Hfs. rewrite Hblank in Hfs.
    destruct Hfs as [Hfs | Hfs];
      rewrite (_generate_examples_present _ _ _ Hfs); reflexivity.
Qed.

Lemma header_only_yields_nothing_witness :
  _generate_examples (sample_fs (tsv_line COLUMNS)) sample_path
  = ([], StopIteration)
  /\ _generate_examples (sample_fs (join_tab sample_header2)) sample_path
     = ([], StopIteration).
Proof.
  split.
  - apply (header_only_yields_nothing
             (sample_fs (tsv_line COLUMNS)) sample_path COLUMNS).
    + reflexivity.
    + left. reflexivity.
  - apply (header_only_yields_nothing
             (sample_fs (join_tab sample_header2)) sample_path sample_header2).
    + reflexivity.
    + right. reflexivity.
Defined.

Lemma blank_or_data_lines (lines : list (list text)) :
  forallb (fun l => negb (nonempty l) || data_row l) lines = true ->
  forallb data_line lines = true.
Proof.
  intros H. apply forallb_forall. intros l Hl.
  rewrite forallb_forall in H. specialize (H l Hl).
  destruct l as [|f l]; [reflexivity|].
  simpl in H. exact (data_row_plain (f :: l) H).
Qed.

(** C10: empty lines among the data rows are passed over.  On a file whose
    lines below the header are empty lines and K data rows, in any mix,
    the parser yields exactly the K records of the data rows, in order,
    with the ordinals 0..K-1, and stops without an error: an empty line
    gives no record and takes no ordinal. *)
Theorem blank_lines_skipped
        (fs : filesystem) (filename : text)
        (header : list text) (lines : list (list text)) :
  fs filename = Some (tsv_file header lines) ->
  Permutation header COLUMNS ->
  forallb (fun l => negb (nonempty l) || data_row l) lines = true ->
  _generate_examples fs filename
  = (combine (seq 0 (length (filter nonempty lines)))
             (map (record_of_row header) (filter nonempty lines)),
     StopIteration).
Proof.
  intros Hfs Hh Hl. rewrite (_generate_examples_present _ _ _ Hfs).
  exact (generate_tsv_file header lines Hh (blank_or_data_lines lines Hl)).
Qed.

Lemma blank_lines_skipped_witness :
  _generate_examples blank_lines_fs sample_path
  = (combine (seq 0 2)
             (map (record_of_row COLUMNS) [sample_row1; sample_row2]),
     StopIteration).
Proof.
  apply (blank_lines_skipped
           blank_lines_fs sample_path COLUMNS
           [[]; sample_row1; []; []; sample_row2; []]).
  - reflexivity.
  - apply Permutation_refl.
  - reflexivity.
Defined.

(** * The parser on other files *)

(** The scenario of the specification: one data row under the header. *)
Example one_row_scenario :
  generate_examples_of
    (tsv_file COLUMNS
       [[T "ACGT"; T "3"; T "Ecoli"; T "NC_000913.3:100-350"; T "in"]])
  = ([ (0, [ (PyStr (T "seq"), PyStr (T "ACGT"));
             (PyStr (T "label_id"), PyStr (T "3"));
             (PyStr (T "label_name"), PyStr (T "Ecoli"));
             (PyStr (T "seq_info"), PyStr (T "NC_000913.3:100-350"));
             (PyStr (T "domain"), PyStr (T "in")) ]) ],
     StopIteration).
Proof. vm_compute. reflexivity. Qed.

(** A header that does not name a column the generator looks up: the
    lookup raises a [KeyError] at the first data row. *)
Example missing_column_KeyError :
  generate_examples_of
    (tsv_file [T "seq"; T "label_id"; T "label_name"; T "seq_info"]
       [[T "ACGT"; T "3"; T "Ecoli"; T "NC_000913.3:100-350"]])
  = ([], Raised (KeyError (T "domain"))).
Proof. vm_compute. reflexivity. Qed.

(** A field opened by a quote character is read by the quoting rules of
    the dialect: the enclosing quotes are not part of the field. *)
Example quoted_field_unquoted :
  generate_examples_of
    (tsv_file COLUMNS
       [[T "ACGT"; T "3"; DQUOTE :: T "E. coli" ++ [DQUOTE]; T "NC"; T "in"]])
  = ([ (0, [ (PyStr (T "seq"), PyStr (T "ACGT"));
             (PyStr (T "label_id"), PyStr (T "3"));
             (PyStr (T "label_name"), PyStr (T "E. coli"));
             (PyStr (T "seq_info"), PyStr (T "NC"));
             (PyStr (T "domain"), PyStr (T "in")) ]) ],
     StopIteration).
Proof. vm_compute. reflexivity. Qed.

(** * The generator on arbitrary files *)

(** ** What [make_example] copies *)

Lemma make_example_inv (row example : dict) :
  make_example row = inr example ->
  exists v1 v2 v3 v4 v5 : pyobj,
    dict_get row (PyStr (T "seq")) = Some v1
    /\ dict_get row (PyStr (T "label_id")) = Some v2
    /\ dict_get row (PyStr (T "label_name")) = Some v3
    /\ dict_get row (PyStr (T "seq_info")) = Some v4
    /\ dict_get row (PyStr (T "domain")) = Some v5
    /\ example = [ (PyStr (T "seq"), v1); (PyStr (T "label_id"), v2);
                   (PyStr (T "label_name"), v3); (PyStr (T "seq_info"), v4);
                   (PyStr (T "domain"), v5) ].
Proof.
  unfold make_example, getitem. intros H.
  destruct (dict_get row (PyStr (T "seq"))) as [v1|]; [|discriminate].
  destruct (dict_get row (PyStr (T "label_id"))) as [v2|]; [|discriminate].
  destruct (dict_get row (PyStr (T "label_name"))) as [v3|]; [|discriminate].
  destruct (dict_get row (PyStr (T "seq_info"))) as [v4|]; [|discriminate].
  destruct (dict_get row (PyStr (T "domain"))) as [v5|]; [|discriminate].
  exists v1, v2, v3, v4, v5. repeat (split; [reflexivity|]).
  simpl in H. injection H as <-. reflexivity.
Qed.

Lemma make_example_error (row : dict) (err : exn) :
  make_example row = inl err ->
  exists key : text,
    err = KeyError key /\ In key COLUMNS /\ dict_get row (PyStr key) = None.
Proof.
  unfold make_example, getitem. intros H.
  destruct (dict_get row (PyStr (T "seq"))) eqn:E1;
    [|injection H as <-; exists (T "seq"); simpl; tauto].
  destruct (dict_get row (PyStr (T "label_id"))) eqn:E2;
    [|injection H as <-; exists (T "label_id"); simpl; tauto].
  destruct (dict_get row (PyStr (T "label_name"))) eqn:E3;
    [|injection H as <-; exists (T "label_name"); simpl; tauto].
  destruct (dict_get row (PyStr (T "seq_info"))) eqn:E4;
    [|injection H as <-; exists (T "seq_info"); simpl; tauto].
  destruct (dict_get row (PyStr (T "domain"))) eqn:E5;
    [|injection H as <-; exists (T "domain"); simpl; tauto].
  discriminate.
Qed.

(** ** The loop *)

Lemma generate_from_ordinals (rows : list dict) :
  forall (n : nat) (e : ending),
    map fst (fst (generate_from n rows e))
    = seq n (length (fst (generate_from n rows e))).
Proof.
  induction rows as [|row rows IH]; intros n e; simpl; [reflexivity|].
  destruct (make_example row); [reflexivity|].
  specialize (IH (S n) e).
  destruct (generate_from (S n) rows e) as [out e']. simpl in *.
  now rewrite IH.
Qed.

Lemma generate_from_In (rows : list dict) :
  forall (n : nat) (e : ending) (p : nat * dict),
    In p (fst (generate_from n rows e)) ->
    exists row : dict, In row rows /\ make_example row = inr (snd p).
Proof.
  induction rows as [|row rows IH]; intros n e p Hp; simpl in Hp.
  - destruct Hp.
  - destruct (make_example row) as [err|example] eqn:E; [destruct Hp|].
    specialize (IH (S n) e p).
    destruct (generate_from (S n) rows e) as [out e']. simpl in *.
    destruct Hp as [<-|Hp].
    + exists row. auto.
    + destruct (IH Hp) as (row' & Hin & Hm). exists row'. auto.
Qed.

Lemma DictReader_rows_In (fieldnames : list text) (rows : list (list text))
      (d : dict) :
  In d (DictReader_rows fieldnames rows) ->
  exists row : list text, In row rows /\ d = DictReader_row fieldnames row.
Proof.
  induction rows as [|r rows IH]; intros H; simpl in H; [destruct H|].
  destruct r as [|f r].
  - destruct (IH H) as (row & Hin & ->). exists row. split; [now right|auto].
  - destruct H as [<-|H].
    + exists (f :: r). split; [now left | reflexivity].
    + destruct (IH H) as (row & Hin & ->). exists row. split; [now right|auto].
Qed.

(** The rows [DictReader] hands to the loop come from one list of field
    names. *)
Lemma DictReader_In (f : trace text) (d : dict) :
  In d (fst (DictReader f)) ->
  exists (fieldnames row : list text), d = DictReader_row fieldnames row.
Proof.
  unfold DictReader.
  destruct (csv_reader excel_tab f) as [[|fieldnames rows] e]; simpl.
  - intros [].
  - intros H. destruct (DictReader_rows_In fieldnames rows d H) as (row & _ & ->).
    eauto.
Qed.

Lemma generate_examples_from_In (f : trace text) (p : nat * dict) :
  In p (fst (generate_examples_from f)) ->
  exists (fieldnames row : list text),
    make_example (DictReader_row fieldnames row) = inr (snd p).
Proof.
  unfold generate_examples_from.
  pose proof (DictReader_In f) as HD.
  destruct (DictReader f) as [rows e]. simpl in HD.
  intros H. destruct (generate_from_In rows 0 e p H) as (row & Hin & Hm).
  destruct (HD row Hin) as (fieldnames & r & ->). eauto.
Qed.

Lemma _generate_examples_In (fs : filesystem) (filename : text)
      (p : nat * dict) :
  In p (fst (_generate_examples fs filename)) ->
  exists (fieldnames row : list text),
    make_example (DictReader_row fieldnames row) = inr (snd p).
Proof.
  unfold _generate_examples. apply generate_examples_from_In.
Qed.

(** Whatever the file, the ordinals of the pairs yielded are 0, 1, 2, ...
    without gap or repetition, up to the point where the enumeration stops
    or fails. *)
Theorem ordinals_count_from_zero (fs : filesystem) (filename : text) :
  map fst (fst (_generate_examples fs filename))
  = seq 0 (length (fst (_generate_examples fs filename))).
Proof.
  unfold _generate_examples, generate_examples_from.
  destruct (DictReader (GFile_iter fs filename)) as [rows e].
  apply generate_from_ordinals.
Qed.

(** Whatever the file, every example yielded has exactly the keys of the
    declared features, in the declared order. *)
Theorem examples_have_feature_keys
        (fs : filesystem) (filename : text) (p : nat * dict) :
  In p (fst (_generate_examples fs filename)) ->
  map fst (snd p) = map (fun f => PyStr (fst f)) features.
Proof.
  intros H.
  destruct (_generate_examples_In fs filename p H) as (fieldnames & row & Hm).
  destruct (make_example_inv _ _ Hm) as (v1 & v2 & v3 & v4 & v5 & _ & _ & _ & _ & _ & ->).
  reflexivity.
Qed.

Lemma examples_have_feature_keys_witness :
  map fst (snd (1, record_of_row COLUMNS sample_row2))
  = map (fun f => PyStr (fst f)) features.
Proof.
  apply (examples_have_feature_keys two_rows_fs sample_path
           (1, record_of_row COLUMNS sample_row2)).
  vm_compute. right. left. reflexivity.
Defined.

(** ** The row dictionaries of [DictReader] *)

Lemma dict_update_get_cases (items : list (pyobj * pyobj)) :
  forall (d : dict) (k v : pyobj),
    dict_get (dict_update d items) k = Some v ->
    In (k, v) items \/ dict_get d k = Some v.
Proof.
  induction items as [|[k0 v0] items IH]; intros d k v H.
  - now right.
  - unfold dict_update in *. simpl in H.
    destruct (IH _ _ _ H) as [Hin|Hget]; [left; now right|].
    destruct (pyobj_eq_dec k0 k) as [->|Hne].
    + rewrite dict_get_set_same in Hget. injection Hget as ->.
      left. now left.
    + rewrite dict_get_set_other in Hget by exact Hne. now right.
Qed.

Lemma dict_set_keeps (d : dict) (k k' v' : pyobj) :
  dict_get d k <> None -> dict_get (dict_set d k' v') k <> None.
Proof.
  intros H. destruct (pyobj_eq_dec k' k) as [->|Hne].
  - rewrite dict_get_set_same. discriminate.
  - now rewrite dict_get_set_other.
Qed.

Lemma dict_update_keeps (items : list (pyobj * pyobj)) :
  forall (d : dict) (k : pyobj),
    dict_get d k <> None -> dict_get (dict_update d items) k <> None.
Proof.
  induction items as [|[k0 v0] items IH]; intros d k H; [exact H|].
  unfold dict_update in *. simpl. apply IH, dict_set_keeps, H.
Qed.

Lemma dict_update_present (items : list (pyobj * pyobj)) :
  forall (d : dict) (k : pyobj),
    In k (map fst items) -> dict_get (dict_update d items) k <> None.
Proof.
  induction items as [|[k0 v0] items IH]; intros d k H; [destruct H|].
  unfold dict_update in *. simpl in *. destruct H as [->|H].
  - apply (dict_update_keeps items). rewrite dict_get_set_same. discriminate.
  - apply IH, H.
Qed.

Lemma combine_keys_firstn (fieldnames : list text) :
  forall (row : list text) (key : text),
    In key (firstn (length row) fieldnames) ->
    In (PyStr key)
       (map fst (map (fun kv : text * text => (PyStr (fst kv), PyStr (snd kv)))
                     (combine fieldnames row))).
Proof.
  induction fieldnames as [|h hs IH]; intros row key H.
  - rewrite firstn_nil in H. destruct H.
  - destruct row as [|v vs]; [destruct H|]. simpl in *.
    destruct H as [->|H]; [now left | right; apply IH, H].
Qed.

(** A field name is bound in every row dictionary. *)
Lemma DictReader_row_bound (fieldnames row : list text) (key : text) :
  In key fieldnames ->
  dict_get (DictReader_row fieldnames row) (PyStr key) <> None.
Proof.
  intros Hin. unfold DictReader_row, dict_zip.
  rewrite <- (firstn_skipn (length row) fieldnames) in Hin.
  apply in_app_or in Hin.
  destruct (length fieldnames <? length row) eqn:Hlong.
  - apply dict_set_keeps.
    destruct Hin as [Hin|Hin].
    + apply dict_update_present, combine_keys_firstn, Hin.
    + apply Nat.ltb_lt in Hlong.
      rewrite skipn_all2 in Hin by lia. destruct Hin.
  - destruct (length row <? length fieldnames) eqn:Hshort.
    + rewrite dict_restval_get.
      destruct (in_dec text_eq_dec key (skipn (length row) fieldnames))
        as [_|Hnin]; [discriminate|].
      destruct Hin as [Hin|Hin]; [|contradiction].
      apply dict_update_present, combine_keys_firstn, Hin.
    + apply Nat.ltb_ge in Hlong. apply Nat.ltb_ge in Hshort.
      destruct Hin as [Hin|Hin].
      * apply dict_update_present, combine_keys_firstn, Hin.
      * rewrite skipn_all2 in Hin by lia. destruct Hin.
Qed.

(** A name that is not a field name is bound in no row dictionary. *)
Lemma DictReader_row_unbound (fieldnames row : list text) (key : text) :
  ~ In key fieldnames ->
  dict_get (DictReader_row fieldnames row) (PyStr key) = None.
Proof.
  intros Hnin. unfold DictReader_row, dict_zip.
  assert (Hzip : dict_get
                   (dict_update []
                      (map (fun kv : text * text =>
                              (PyStr (fst kv), PyStr (snd kv)))
                           (combine fieldnames row)))
                   (PyStr key) = None).
  { rewrite dict_update_other; [reflexivity|].
    rewrite map_map. simpl. intros H.
    apply in_map_iff in H. destruct H as ([a b] & E & H).
    simpl in E. injection E as ->.
    apply in_combine_l in H. contradiction. }
  destruct (length fieldnames <? length row).
  - rewrite dict_get_set_other by discriminate. exact Hzip.
  - destruct (length row <? length fieldnames); [|exact Hzip].
    rewrite dict_restval_get.
    destruct (in_dec text_eq_dec key (skipn (length row) fieldnames))
      as [Hin|_]; [|exact Hzip].
    exfalso. apply Hnin.
    rewrite <- (firstn_skipn (length row) fieldnames).
    apply in_or_app. now right.
Qed.

(** What a field name is bound to is a string or [None], never the list
    of surplus fields. *)
Lemma DictReader_row_value (fieldnames row : list text) (key : text)
      (v : pyobj) :
  dict_get (DictReader_row fieldnames row) (PyStr key) = Some v ->
  v = PyNone \/ exists s : text, v = PyStr s.
Proof.
  unfold DictReader_row, dict_zip.
  assert (Hzip : forall v,
             dict_get
               (dict_update []
                  (map (fun kv : text * text =>
                          (PyStr (fst kv), PyStr (snd kv)))
                       (combine fieldnames row)))
               (PyStr key) = Some v ->
             exists s : text, v = PyStr s).
  { intros v0 H. apply dict_update_get_cases in H.
    destruct H as [H|H]; [|discriminate].
    apply in_map_iff in H. destruct H as ([a b] & E & _).
    injection E as _ <-. eauto. }
  destruct (length fieldnames <? length row).
  - rewrite dict_get_set_other by discriminate. intros H. right. eauto.
  - destruct (length row <? length fieldnames).
    + intros H. apply dict_update_get_cases in H.
      destruct H as [H|H]; [|right; eauto].
      apply in_map_iff in H. destruct H as (k & E & _).
      injection E as _ <-. now left.
    + intros H. right. eauto.
Qed.

(** Whatever the file, every value of an example yielded is a string or
    [None]: no number, and never the list of surplus fields that
    [DictReader] keeps for a long row. *)
Theorem example_values_are_text_or_None
        (fs : filesystem) (filename : text) (p : nat * dict)
        (k v : pyobj) :
  In p (fst (_generate_examples fs filename)) ->
  In (k, v) (snd p) ->
  v = PyNone \/ exists s : text, v = PyStr s.
Proof.
  intros Hp Hkv.
  destruct (_generate_examples_In fs filename p Hp) as (fieldnames & row & Hm).
  destruct (make_example_inv _ _ Hm)
    as (v1 & v2 & v3 & v4 & v5 & H1 & H2 & H3 & H4 & H5 & E).
  rewrite E in Hkv. simpl in Hkv.
  repeat (destruct Hkv as [Hkv|Hkv];
          [injection Hkv as _ <-;
           eauto using DictReader_row_value|]).
  destruct Hkv.
Qed.

Lemma example_values_are_text_or_None_witness :
  PyNone = PyNone \/ exists s : text, PyNone = PyStr s.
Proof.
  apply (example_values_are_text_or_None short_row_fs sample_path
           (1, record_of_row COLUMNS sample_short_row)
           (PyStr (T "domain")) PyNone).
  - vm_compute. right. left. reflexivity.
  - vm_compute. do 4 right. left. reflexivity.
Defined.

(** ** The exceptions *)

Lemma parse_add_char_error (self : ReaderObj) (c : char) (err : exn) :
  parse_add_char self c = inl err -> exists msg, err = csv_Error msg.
Proof.
  unfold parse_add_char.
  destruct (field_limit <=? N.of_nat (length (field self)))%N;
    intros H; [|discriminate].
  injection H as <-. eauto.
Qed.

Lemma parse_process_char_error (self : ReaderObj) (c : char) (err : exn) :
  parse_process_char excel_tab self c = inl err ->
  exists msg, err = csv_Error msg.
Proof.
  unfold parse_process_char, start_field, bind. simpl.
  destruct (state self);
    repeat match goal with
           | |- context [if ?b then _ else _] => destruct b
           | |- context [match parse_add_char ?s ?c with _ => _ end] =>
               let E := fresh "E" in
               destruct (parse_add_char s c) eqn:E;
               [apply parse_add_char_error in E|]
           end;
    intros H; try discriminate; try (injection H as <-; eauto);
    eauto using parse_add_char_error.
Qed.

Lemma parse_line_error (line : text) :
  forall (self : ReaderObj) (err : exn),
    parse_line excel_tab self line = inl err ->
    exists msg, err = csv_Error msg.
Proof.
  induction line as [|c line IH]; intros self err H; simpl in H.
  - eauto using parse_process_char_error.
  - destruct (N.eqb c NUL); [injection H as <-; eauto|].
    destruct (parse_process_char excel_tab self c) as [e|self'] eqn:E;
      simpl in H.
    + injection H as <-. eauto using parse_process_char_error.
    + eauto.
Qed.

(** The reader raises no [KeyError] of its own. *)
Lemma Reader_iter_KeyError (lines : list text) :
  forall (self : ReaderObj) (e : ending) (key : text),
    snd (Reader_iter excel_tab self lines e) = Raised (KeyError key) ->
    e = Raised (KeyError key).
Proof.
  induction lines as [|line lines IH]; intros self e key H; simpl in H.
  - destruct e as [|err]; [|exact H].
    destruct (negb (length (field self) =? 0)
              || ParserState_eqb (state self) IN_QUOTED_FIELD);
      discriminate.
  - destruct (parse_line excel_tab self line) as [err|self'] eqn:E.
    + destruct (parse_line_error line self err E) as [msg ->]. discriminate.
    + destruct (ParserState_eqb (state self') START_RECORD).
      * specialize (IH parse_reset e key).
        destruct (Reader_iter excel_tab parse_reset lines e). simpl in *. auto.
      * eauto.
Qed.

Lemma make_example_total (row : dict) :
  (forall key, In key COLUMNS -> dict_get row (PyStr key) <> None) ->
  exists example, make_example row = inr example.
Proof.
  intros H. destruct (make_example row) as [err|example] eqn:E; [|eauto].
  destruct (make_example_error row err E) as (key & _ & Hin & Hnone).
  destruct (H key Hin Hnone).
Qed.

(** With one list of field names, the lookups of the loop body succeed on
    every row or fail on every row. *)
Lemma make_example_uniform (fieldnames : list text) :
  (forall row, exists example,
      make_example (DictReader_row fieldnames row) = inr example)
  \/ (forall row, exists key,
         make_example (DictReader_row fieldnames row) = inl (KeyError key)
         /\ In key COLUMNS).
Proof.
  destruct (make_example (DictReader_row fieldnames [])) as [err|ex] eqn:E.
  - right. intros row.
    destruct (make_example_error _ _ E) as (key & _ & Hin & Hnone).
    assert (Hnin : ~ In key fieldnames).
    { intros Hf. exact (DictReader_row_bound fieldnames [] key Hf Hnone). }
    destruct (make_example (DictReader_row fieldnames row)) as [err'|ex'] eqn:E'.
    + destruct (make_example_error _ _ E') as (key' & -> & Hin' & _). eauto.
    + exfalso.
      destruct (make_example_inv _ _ E')
        as (v1 & v2 & v3 & v4 & v5 & H1 & H2 & H3 & H4 & H5 & _).
      pose proof (DictReader_row_unbound fieldnames row key Hnin) as Hu.
      unfold COLUMNS in Hin.
      repeat (destruct Hin as [<-|Hin]; [congruence|]). destruct Hin.
  - left. intros row. apply make_example_total. intros key Hin.
    apply DictReader_row_bound.
    destruct (in_dec text_eq_dec key fieldnames) as [Hf|Hnf]; [exact Hf|].
    exfalso.
    pose proof (DictReader_row_unbound fieldnames [] key Hnf) as Hu.
    destruct (make_example_inv _ _ E)
      as (v1 & v2 & v3 & v4 & v5 & H1 & H2 & H3 & H4 & H5 & _).
    unfold COLUMNS in Hin.
    repeat (destruct Hin as [<-|Hin]; [congruence|]). destruct Hin.
Qed.

Lemma generate_from_all_succeed (fieldnames : list text)
      (rows : list (list text)) :
  (forall row, exists example,
      make_example (DictReader_row fieldnames row) = inr example) ->
  forall (n : nat) (e : ending),
    snd (generate_from n (DictReader_rows fieldnames rows) e) = e.
Proof.
  intros Hok. induction rows as [|r rows IH]; intros n e; [reflexivity|].
  destruct r as [|f r]; [apply IH|].
  change (DictReader_rows fieldnames ((f :: r) :: rows))
    with (DictReader_row fieldnames (f :: r) :: DictReader_rows fieldnames rows).
  simpl. destruct (Hok (f :: r)) as [example ->].
  specialize (IH (S n) e).
  destruct (generate_from (S n) (DictReader_rows fieldnames rows) e).
  exact IH.
Qed.

Lemma generate_from_all_fail (fieldnames : list text)
      (rows : list (list text)) :
  (forall row, exists key,
      make_example (DictReader_row fieldnames row) = inl (KeyError key)
      /\ In key COLUMNS) ->
  forall (n : nat) (e : ending),
    fst (generate_from n (DictReader_rows fieldnames rows) e) = []
    /\ (snd (generate_from n (DictReader_rows fieldnames rows) e) = e
        \/ exists key,
             snd (generate_from n (DictReader_rows fieldnames rows) e)
             = Raised (KeyError key) /\ In key COLUMNS).
Proof.
  intros Hfail. induction rows as [|r rows IH]; intros n e.
  - split; [reflexivity | now left].
  - destruct r as [|f r]; [apply IH|].
    change (DictReader_rows fieldnames ((f :: r) :: rows))
      with (DictReader_row fieldnames (f :: r)
            :: DictReader_rows fieldnames rows).
    simpl. destruct (Hfail (f :: r)) as (key & -> & Hin). simpl.
    split; [reflexivity | right; eauto].
Qed.

(** A [KeyError] comes from the lookups of the loop body, and then
    before the first record. *)
Lemma generate_examples_from_KeyError (f : trace text) (key : text) :
  snd f <> Raised (KeyError key) ->
  snd (generate_examples_from f) = Raised (KeyError key) ->
  In key COLUMNS /\ fst (generate_examples_from f) = [].
Proof.
  intros Hf. unfold generate_examples_from, DictReader, csv_reader.
  pose proof (Reader_iter_KeyError (fst f) parse_reset (snd f) key) as HR.
  destruct (Reader_iter excel_tab parse_reset (fst f) (snd f))
    as [[|fieldnames rows] e]; simpl in HR |- *.
  - intros H. destruct (Hf (HR H)).
  - destruct (make_example_uniform fieldnames) as [Hok|Hfail].
    + rewrite (generate_from_all_succeed fieldnames rows Hok 0 e).
      intros H. destruct (Hf (HR H)).
    + destruct (generate_from_all_fail fieldnames rows Hfail 0 e)
        as [Hnil [He|(key' & He & Hin)]]; rewrite He; intros H.
      * destruct (Hf (HR H)).
      * injection H as <-. auto.
Qed.

(** A lookup error can only be the first thing that happens: when the
    enumeration of a file ends in a [KeyError], the key is one of the five
    columns and no record was yielded before.  Whether the lookups fail
    is settled by the field names alone. *)
Theorem KeyError_only_before_first_record
        (fs : filesystem) (filename : text) (key : text) :
  snd (_generate_examples fs filename) = Raised (KeyError key) ->
  In key COLUMNS /\ fst (_generate_examples fs filename) = [].
Proof.
  unfold _generate_examples. apply generate_examples_from_KeyError.
  unfold GFile_iter. destruct (fs filename); discriminate.
Qed.

Lemma KeyError_only_before_first_record_witness :
  In (T "domain") COLUMNS
  /\ fst (_generate_examples no_domain_fs sample_path) = [].
Proof.
  apply (KeyError_only_before_first_record
           no_domain_fs sample_path (T "domain")).
  vm_compute. reflexivity.
Defined.

(** * Quoted fields and line ends *)

Lemma quoted_char_spec (c : char) :
  quoted_char c = true ->
  N.eqb c DQUOTE = false /\ N.eqb c LF = false
  /\ N.eqb c CR = false /\ N.eqb c NUL = false.
Proof.
  unfold quoted_char. intros H. apply negb_true_iff in H.
  repeat (apply orb_false_iff in H; destruct H as [H ?]). auto.
Qed.

(** Between quotes every character but the quote is appended, the tab
    included. *)
Lemma feed_in_quoted (s : text) :
  forall (fs : list text) (f : text),
    forallb quoted_char s = true ->
    (N.of_nat (length f + length s) <= field_limit)%N ->
    feed (Build_ReaderObj IN_QUOTED_FIELD fs f) s
    = inr (Build_ReaderObj IN_QUOTED_FIELD fs (f ++ s)).
Proof.
  induction s as [|c s IH]; intros fs f Hall Hlen; simpl.
  - now rewrite app_nil_r.
  - simpl in Hall. apply andb_true_iff in Hall. destruct Hall as [Hc Hs].
    destruct (quoted_char_spec c Hc) as (Hq & Hlf & Hcr & Hnul).
    rewrite Hnul.
    unfold parse_process_char. simpl state. simpl quotechar.
    rewrite Hnul, Hq.
    rewrite add_char_ok by (simpl in Hlen; lia).
    simpl bind. rewrite IH.
    + now rewrite <- app_assoc.
    + exact Hs.
    + rewrite length_app. simpl in *. lia.
Qed.

Lemma feed_written_field (f : tsv_field) (fs : list text) :
  valid_field f = true ->
  feed (Build_ReaderObj START_FIELD fs []) (written f)
  = inr match f with
        | Unquoted [] => Build_ReaderObj START_FIELD fs []
        | Unquoted s => Build_ReaderObj IN_FIELD fs s
        | Quoted s => Build_ReaderObj QUOTE_IN_QUOTED_FIELD fs s
        end.
Proof.
  destruct f as [s|s]; cbn [valid_field written]; intros H.
  - rewrite (feed_plain_field s fs H). destruct s; reflexivity.
  - apply andb_true_iff in H. destruct H as [Hall Hlen].
    apply N.leb_le in Hlen.
    change (DQUOTE :: s ++ [DQUOTE]) with ([DQUOTE] ++ s ++ [DQUOTE]).
    rewrite (feed_app [DQUOTE] _ _ (Build_ReaderObj IN_QUOTED_FIELD fs []))
      by reflexivity.
    rewrite (feed_app s [DQUOTE] _ _
               (feed_in_quoted s fs [] Hall Hlen)).
    reflexivity.
Qed.

Lemma feed_written_tab (f : tsv_field) (fs : list text) :
  valid_field f = true ->
  feed (Build_ReaderObj START_FIELD fs []) (written f ++ [TAB])
  = inr (Build_ReaderObj START_FIELD (fs ++ [unquote f]) []).
Proof.
  intros Hf.
  rewrite (feed_app (written f) [TAB] _ _ (feed_written_field f fs Hf)).
  destruct f as [[|c s]|s]; reflexivity.
Qed.

Lemma parse_line_written_last (f : tsv_field) (eol : text) (fs : list text) :
  valid_field f = true ->
  line_end eol ->
  parse_line excel_tab (Build_ReaderObj START_FIELD fs []) (written f ++ eol)
  = inr (Build_ReaderObj START_RECORD (fs ++ [unquote f]) []).
Proof.
  intros Hf Heol.
  rewrite (parse_line_feed (written f) eol _ _ (feed_written_field f fs Hf)).
  destruct Heol as [-> | [-> | ->]]; destruct f as [[|c s]|s]; reflexivity.
Qed.

Lemma parse_line_written_fields (r : list tsv_field) (eol : text) :
  forall fs : list text,
    r <> [] ->
    forallb valid_field r = true ->
    line_end eol ->
    parse_line excel_tab (Build_ReaderObj START_FIELD fs [])
               (join_tab (map written r) ++ eol)
    = inr (Build_ReaderObj START_RECORD (fs ++ map unquote r) []).
Proof.
  induction r as [|f r IH]; intros fs Hne Hall Heol; [congruence|].
  simpl in Hall. apply andb_true_iff in Hall. destruct Hall as [Hf Hr].
  destruct r as [|g r].
  - simpl. apply parse_line_written_last; assumption.
  - change (join_tab (map written (f :: g :: r)))
      with (written f ++ TAB :: join_tab (map written (g :: r))).
    replace ((written f ++ TAB :: join_tab (map written (g :: r))) ++ eol)
      with ((written f ++ [TAB]) ++ (join_tab (map written (g :: r)) ++ eol))
      by (rewrite <- !app_assoc; reflexivity).
    rewrite (parse_line_feed _ _ _ _ (feed_written_tab f fs Hf)).
    rewrite IH by (try discriminate; assumption).
    rewrite <- app_assoc. reflexivity.
Qed.

Lemma written_line_first_char (r : list tsv_field) (eol : text) :
  valid_line r = true ->
  r <> [] ->
  exists c rest,
    join_tab (map written r) ++ eol = c :: rest /\ is_newline c = false.
Proof.
  unfold valid_line. intros H Hne.
  apply andb_true_iff in H. destruct H as [Hall Hnb].
  destruct r as [|f r]; [congruence|].
  simpl in Hall. apply andb_true_iff in Hall. destruct Hall as [Hf _].
  destruct f as [[|c s]|s].
  - destruct r as [|g r]; [discriminate|].
    exists TAB, (join_tab (map written (g :: r)) ++ eol).
    split; reflexivity.
  - simpl in Hf. destruct (plain_field_spec _ Hf) as (Hchars & _ & _).
    simpl in Hchars. apply andb_true_iff in Hchars. destruct Hchars as [Hc _].
    destruct (plain_char_spec c Hc) as (_ & Hlf & Hcr & _).
    destruct r as [|g r]; eexists c, _; (split; [reflexivity|]);
      unfold is_newline; now rewrite Hlf, Hcr.
  - destruct r as [|g r]; eexists DQUOTE, _; split; reflexivity.
Qed.

(** The reader takes a written line apart into the texts its fields stand
    for. *)
Lemma parse_line_written_line (r : list tsv_field) (eol : text) :
  valid_line r = true ->
  line_end eol ->
  parse_line excel_tab parse_reset (written_line eol r)
  = inr (Build_ReaderObj START_RECORD (map unquote r) []).
Proof.
  intros H Heol. unfold written_line.
  destruct r as [|f r].
  - destruct Heol as [-> | [-> | ->]]; reflexivity.
  - destruct (written_line_first_char (f :: r) eol H) as (c & rest & E & Hnl);
      [discriminate|].
    rewrite E, parse_line_start_record by exact Hnl. rewrite <- E.
    unfold valid_line in H. apply andb_true_iff in H. destruct H as [Hall _].
    apply (parse_line_written_fields (f :: r) eol []);
      [discriminate | exact Hall | exact Heol].
Qed.

Lemma written_no_LF (r : list tsv_field) :
  forallb valid_field r = true ->
  forallb line_char (join_tab (map written r)) = true.
Proof.
  induction r as [|f r IH]; intros H; [reflexivity|].
  cbn [forallb] in H. apply andb_true_iff in H. destruct H as [Hf Hr].
  assert (Hfc : forallb line_char (written f) = true).
  { destruct f as [s|s]; cbn [valid_field written] in Hf |- *.
    - destruct (plain_field_spec s Hf) as (Hall & _ & _).
      apply forallb_forall. intros c Hc. rewrite forallb_forall in Hall.
      apply plain_char_line_char, Hall, Hc.
    - apply andb_true_iff in Hf. destruct Hf as [Hall _].
      change (DQUOTE :: s ++ [DQUOTE]) with ([DQUOTE] ++ s ++ [DQUOTE]).
      rewrite !forallb_app.
      change (forallb line_char [DQUOTE]) with true. cbn [andb].
      rewrite andb_true_r.
      apply forallb_forall. intros c Hc. rewrite forallb_forall in Hall.
      destruct (quoted_char_spec c (Hall c Hc)) as (_ & Hlf & Hcr & _).
      unfold line_char. now rewrite Hlf, Hcr. }
  destruct r as [|g r]; [exact Hfc|].
  change (join_tab (map written (f :: g :: r)))
    with (written f ++ TAB :: join_tab (map written (g :: r))).
  rewrite forallb_app, Hfc. cbn [forallb andb].
  change (line_char TAB) with true. cbn [andb]. apply IH. exact Hr.
Qed.

(** ** Files of written lines, and what follows them *)

Lemma readlines_written (rs : list (list tsv_field)) (rest : text) :
  forallb valid_line rs = true ->
  readlines_from [] (concat (map (written_line [LF]) rs) ++ rest)
  = map (written_line [LF]) rs ++ readlines_from [] rest.
Proof.
  intros H.
  induction rs as [|r rs IH]; [reflexivity|].
  cbn [forallb] in H. apply andb_true_iff in H. destruct H as [Hr Hrs].
  unfold valid_line in Hr. apply andb_true_iff in Hr. destruct Hr as [Hr _].
  pose proof (written_no_LF r Hr) as Hno.
  cbn [map concat]. unfold written_line at 1.
  rewrite <- !app_assoc. cbn [app].
  rewrite (readlines_from_line _ _ [] Hno). cbn [app].
  f_equal. apply IH. exact Hrs.
Qed.

Lemma Reader_iter_written (rs : list (list tsv_field)) (more : list text)
      (e : ending) :
  forallb valid_line rs = true ->
  Reader_iter excel_tab parse_reset (map (written_line [LF]) rs ++ more) e
  = (map (map unquote) rs ++ fst (Reader_iter excel_tab parse_reset more e),
     snd (Reader_iter excel_tab parse_reset more e)).
Proof.
  intros H.
  induction rs as [|r rs IH].
  - simpl. now destruct (Reader_iter excel_tab parse_reset more e).
  - cbn [forallb] in H. apply andb_true_iff in H. destruct H as [Hr Hrs].
    cbn [map app Reader_iter].
    rewrite (parse_line_written_line r [LF] Hr) by (right; now left).
    cbn [state fields ParserState_eqb].
    rewrite (IH Hrs). reflexivity.
Qed.

Lemma generate_from_rows_ending (header : list text)
      (rows : list (list text)) (e : ending) :
  forall n : nat,
    NoDup header ->
    incl COLUMNS header ->
    generate_from n (DictReader_rows header rows) e
    = (combine (seq n (length (filter nonempty rows)))
               (map (record_of_row header) (filter nonempty rows)),
       e).
Proof.
  intros n Hnd Hincl. revert n.
  induction rows as [|r rows IH]; intros n; [reflexivity|].
  destruct r as [|f r].
  - simpl. apply IH.
  - change (DictReader_rows header ((f :: r) :: rows))
      with (DictReader_row header (f :: r) :: DictReader_rows header rows).
    simpl. rewrite (make_example_row header (f :: r) Hnd Hincl).
    rewrite IH. reflexivity.
Qed.

(** From the rows of the reader to the pairs of the generator. *)
Lemma generate_of_reader_rows (contents : text) (header : list text)
      (rows : list (list text)) (e : ending) :
  csv_reader excel_tab (GFile_lines contents, StopIteration) = (header :: rows, e) ->
  Permutation header COLUMNS ->
  generate_examples_of contents
  = (numbered header (filter nonempty rows), e).
Proof.
  intros Hr Hh. unfold generate_examples_of, generate_examples_from, DictReader. rewrite Hr.
  apply generate_from_rows_ending;
    [apply header_NoDup | apply header_incl]; exact Hh.
Qed.

Lemma header_valid_line (header : list text) :
  Permutation header COLUMNS -> valid_line (map Unquoted header) = true.
Proof.
  intros Hh. pose proof (header_plain_row header Hh) as Hp.
  unfold plain_row in Hp. apply andb_true_iff in Hp. destruct Hp as [Hall Hnb].
  unfold valid_line. apply andb_true_iff. split.
  - apply forallb_forall. intros f Hf.
    apply in_map_iff in Hf. destruct Hf as (s & <- & Hs).
    rewrite forallb_forall in Hall. exact (Hall s Hs).
  - destruct header as [|a [|b l]]; [discriminate| |]; destruct a;
      try discriminate; reflexivity.
Qed.

Lemma unquote_Unquoted (r : list text) : map unquote (map Unquoted r) = r.
Proof.
  rewrite map_map. simpl. apply map_id.
Qed.

Lemma written_Unquoted (r : list text) : map written (map Unquoted r) = r.
Proof.
  rewrite map_map. simpl. apply map_id.
Qed.

(** The generator on a file that begins with a header and valid lines:
    the records of these lines, and then whatever the reader makes of the
    rest of the file. *)
Lemma generate_written_prefix (header : list text)
      (rows : list (list tsv_field)) (rest : text) :
  Permutation header COLUMNS ->
  forallb valid_line rows = true ->
  generate_examples_of (written_file header rows ++ rest)
  = (numbered header
       (filter nonempty
          (map (map unquote) rows
           ++ fst (csv_reader excel_tab (GFile_lines rest, StopIteration)))),
     snd (csv_reader excel_tab (GFile_lines rest, StopIteration))).
Proof.
  intros Hh Hrows.
  assert (Hall : forallb valid_line (map Unquoted header :: rows) = true)
    by (cbn [forallb]; now rewrite (header_valid_line header Hh), Hrows).
  apply generate_of_reader_rows; [|exact Hh].
  unfold written_file, GFile_lines, csv_reader. cbn [fst snd].
  rewrite (readlines_written _ rest Hall).
  rewrite (Reader_iter_written _ _ StopIteration Hall).
  cbn [map]. rewrite unquote_Unquoted. reflexivity.
Qed.

Lemma data_line_valid (r : list text) :
  data_line r = true -> valid_line (map Unquoted r) = true.
Proof.
  destruct r as [|f r]; [reflexivity|].
  unfold data_line, plain_row, valid_line. intros H.
  apply andb_true_iff in H. destruct H as [Hall Hnb].
  apply andb_true_iff. split.
  - apply forallb_forall. intros x Hx.
    apply in_map_iff in Hx. destruct Hx as (s & <- & Hs).
    rewrite forallb_forall in Hall. exact (Hall s Hs).
  - destruct f; destruct r; try discriminate; reflexivity.
Qed.

Lemma data_lines_valid (rs : list (list text)) :
  forallb data_line rs = true ->
  forallb valid_line (map (map Unquoted) rs) = true.
Proof.
  intros H. apply forallb_forall. intros x Hx.
  apply in_map_iff in Hx. destruct Hx as (r & <- & Hr).
  rewrite forallb_forall in H. exact (data_line_valid r (H r Hr)).
Qed.

Lemma unquote_Unquoted_rows (rs : list (list text)) :
  map (map unquote) (map (map Unquoted) rs) = rs.
Proof.
  rewrite map_map. rewrite <- (map_id rs) at 2.
  apply map_ext. intros r. apply unquote_Unquoted.
Qed.

Lemma tsv_file_written (header : list text) (rs : list (list text)) :
  tsv_file header rs = written_file header (map (map Unquoted) rs).
Proof.
  unfold tsv_file, written_file, tsv_line, written_line. simpl.
  rewrite written_Unquoted. f_equal.
  rewrite map_map. f_equal. apply map_ext. intros r.
  now rewrite written_Unquoted.
Qed.

Lemma generate_written_file (header : list text)
      (rows : list (list tsv_field)) :
  Permutation header COLUMNS ->
  forallb valid_line rows = true ->
  generate_examples_of (written_file header rows)
  = (numbered header (filter nonempty (map (map unquote) rows)),
     StopIteration).
Proof.
  intros Hh Hrows.
  rewrite <- (app_nil_r (written_file header rows)).
  rewrite (generate_written_prefix header rows [] Hh Hrows).
  simpl. now rewrite app_nil_r.
Qed.

(** A field enclosed in quote characters is read without them, and a tab
    between the quotes is part of the field, not a separator.  On a file
    whose lines are empty or made of valid fields, quoted or not, the
    parser yields the records of the texts the fields stand for. *)
Theorem quoted_fields_read_unquoted
        (fs : filesystem) (filename : text)
        (header : list text) (rows : list (list tsv_field)) :
  fs filename = Some (written_file header rows) ->
  Permutation header COLUMNS ->
  forallb valid_line rows = true ->
  _generate_examples fs filename
  = (numbered header (filter nonempty (map (map unquote) rows)),
     StopIteration).
Proof.
  intros Hfs Hh Hrows. rewrite (_generate_examples_present _ _ _ Hfs).
  apply generate_written_file; assumption.
Qed.

Lemma quoted_fields_read_unquoted_witness :
  _generate_examples
    (sample_fs (written_file COLUMNS [sample_quoted_row])) sample_path
  = (numbered COLUMNS
       (filter nonempty (map (map unquote) [sample_quoted_row])),
     StopIteration).
Proof.
  apply (quoted_fields_read_unquoted
           (sample_fs (written_file COLUMNS [sample_quoted_row]))
           sample_path COLUMNS [sample_quoted_row]).
  - reflexivity.
  - apply Permutation_refl.
  - reflexivity.
Defined.

(** ** The fields of a record, quoting apart *)





(** ** Lines that end in CR LF *)

Lemma readlines_from_crlf_line (l rest : text) :
  forall cur : text,
    forallb line_char l = true ->
    readlines_from cur (l ++ CR :: LF :: rest)
    = (cur ++ l ++ [LF]) :: readlines_from [] rest.
Proof.
  induction l as [|c l IH]; intros cur H.
  - reflexivity.
  - cbn [forallb] in H. apply andb_true_iff in H. destruct H as [Hc Hl].
    destruct (line_char_spec c Hc) as [Hlf Hcr].
    cbn [app readlines_from]. rewrite Hlf, Hcr.
    rewrite IH by exact Hl. now rewrite <- app_assoc.
Qed.

Lemma GFile_lines_crlf (rs : list (list text)) :
  forallb data_line rs = true ->
  GFile_lines (concat (map crlf_line rs)) = map tsv_line rs.
Proof.
  unfold GFile_lines.
  induction rs as [|r rs IH]; intros H; [reflexivity|].
  cbn [forallb] in H. apply andb_true_iff in H. destruct H as [Hr Hrs].
  cbn [map concat]. unfold crlf_line at 1. rewrite <- app_assoc. cbn [app].
  rewrite readlines_from_crlf_line
    by (apply join_tab_no_LF, data_line_fields; exact Hr).
  rewrite IH by exact Hrs. reflexivity.
Qed.

(** A file whose lines end in CR LF is read like the same file with lines
    ending in LF: the CR before the line feed is not part of the last
    field. *)
Theorem crlf_read_like_lf
        (fs : filesystem) (filename1 filename2 : text)
        (header : list text) (lines : list (list text)) :
  Permutation header COLUMNS ->
  forallb data_line lines = true ->
  fs filename1 = Some (crlf_file header lines) ->
  fs filename2 = Some (tsv_file header lines) ->
  _generate_examples fs filename1 = _generate_examples fs filename2.
Proof.
  intros Hh Hl H1 H2.
  rewrite (_generate_examples_present _ _ _ H1),
    (_generate_examples_present _ _ _ H2).
  assert (Hall : forallb data_line (header :: lines) = true).
  { cbn [forallb]. rewrite Hl, andb_true_r.
    pose proof (header_plain_row header Hh) as Hp.
    destruct header; [discriminate | exact Hp]. }
  unfold generate_examples_of, crlf_file, tsv_file.
  now rewrite (GFile_lines_crlf _ Hall), (GFile_lines_tsv _ Hall).
Qed.

Lemma crlf_read_like_lf_witness :
  _generate_examples
    (fun path => if text_eq_dec path (T "dos.txt")
                 then Some (crlf_file COLUMNS [sample_row1; []; sample_row2])
                 else Some (tsv_file COLUMNS [sample_row1; []; sample_row2]))
    (T "dos.txt")
  = _generate_examples
      (fun path => if text_eq_dec path (T "dos.txt")
                   then Some (crlf_file COLUMNS [sample_row1; []; sample_row2])
                   else Some (tsv_file COLUMNS [sample_row1; []; sample_row2]))
      (T "unix.txt").
Proof.
  apply (crlf_read_like_lf _ (T "dos.txt") (T "unix.txt") COLUMNS
           [sample_row1; []; sample_row2]).
  - apply Permutation_refl.
  - reflexivity.
  - reflexivity.
  - reflexivity.
Defined.

(** ** A last line without a line feed *)

Lemma reader_single_plain_line (r : list text) :
  plain_row r = true ->
  csv_reader excel_tab (GFile_lines (join_tab r), StopIteration) = ([r], StopIteration).
Proof.
  intros Hr.
  assert (Hall : forallb plain_field r = true)
    by (unfold plain_row in Hr; apply andb_true_iff in Hr; tauto).
  destruct (plain_row_first_char r [] Hr) as (c & rest & E & _).
  rewrite app_nil_r in E.
  unfold csv_reader, GFile_lines. cbn [fst snd].
  rewrite (readlines_from_no_LF (join_tab r) [] (join_tab_no_LF r Hall)).
  simpl app. rewrite E. rewrite <- E. simpl.
  rewrite <- (app_nil_r (join_tab r)).
  rewrite (parse_line_plain_row_eol r [] Hr) by (now left).
  reflexivity.
Qed.

(** The line feed at the end of the last line makes no difference: a file
    whose last line lacks it is read like the file with it. *)
Theorem final_line_feed_optional
        (fs : filesystem) (filename1 filename2 : text)
        (header : list text) (lines : list (list text)) (last : list text) :
  Permutation header COLUMNS ->
  forallb data_line lines = true ->
  data_line last = true ->
  fs filename1 = Some (tsv_file header lines ++ join_tab last) ->
  fs filename2 = Some (tsv_file header (lines ++ [last])) ->
  _generate_examples fs filename1 = _generate_examples fs filename2.
Proof.
  intros Hh Hl Hlast H1 H2. rewrite (_generate_examples_present _ _ _ H1),
    (_generate_examples_present _ _ _ H2).
  rewrite (generate_tsv_file header (lines ++ [last]) Hh)
    by (rewrite forallb_app, Hl; simpl; now rewrite Hlast).
  rewrite tsv_file_written.
  rewrite (generate_written_prefix header _ (join_tab last) Hh
             (data_lines_valid lines Hl)).
  rewrite unquote_Unquoted_rows.
  destruct last as [|f r].
  - simpl. now rewrite !filter_app, !app_nil_r.
  - rewrite (reader_single_plain_line (f :: r) Hlast). reflexivity.
Qed.

Lemma final_line_feed_optional_witness :
  _generate_examples
    (fun path => if text_eq_dec path (T "cut.txt")
                 then Some (tsv_file COLUMNS [sample_row1]
                            ++ join_tab sample_row2)
                 else Some (tsv_file COLUMNS ([sample_row1] ++ [sample_row2])))
    (T "cut.txt")
  = _generate_examples
      (fun path => if text_eq_dec path (T "cut.txt")
                   then Some (tsv_file COLUMNS [sample_row1]
                              ++ join_tab sample_row2)
                   else Some (tsv_file COLUMNS ([sample_row1] ++ [sample_row2])))
      (T "whole.txt").
Proof.
  apply (final_line_feed_optional _ (T "cut.txt") (T "whole.txt") COLUMNS
           [sample_row1] sample_row2).
  - apply Permutation_refl.
  - reflexivity.
  - reflexivity.
  - reflexivity.
  - reflexivity.
Defined.

(** * Carriage returns *)

Lemma readlines_from_without_CR (s : text) :
  forall cur : text,
    readlines_from cur (without_CR s) = readlines_from cur s.
Proof.
  unfold without_CR.
  induction s as [|c s IH]; intros cur; [reflexivity|].
  cbn [filter readlines_from].
  destruct (N.eqb c CR) eqn:Hcr.
  - apply N.eqb_eq in Hcr. subst c. cbn [negb].
    change (N.eqb CR LF) with false. cbn iota. apply IH.
  - cbn [negb readlines_from]. rewrite Hcr.
    destruct (N.eqb c LF); now rewrite IH.
Qed.

(** Carriage returns never reach the reader: a file yields what the same
    file without its carriage returns yields, wherever they stand.  A
    carriage return in the middle of a line does not end the line and
    does not make the enumeration fail. *)
Theorem carriage_returns_ignored
        (fs : filesystem) (filename1 filename2 : text) (contents : text) :
  fs filename1 = Some contents ->
  fs filename2 = Some (without_CR contents) ->
  _generate_examples fs filename1 = _generate_examples fs filename2.
Proof.
  intros H1 H2.
  rewrite (_generate_examples_present _ _ _ H1),
    (_generate_examples_present _ _ _ H2).
  unfold generate_examples_of, GFile_lines.
  now rewrite readlines_from_without_CR.
Qed.

Lemma carriage_returns_ignored_witness :
  _generate_examples
    (fun path =>
       if text_eq_dec path (T "cr.txt")
       then Some (tsv_file COLUMNS [sample_row1]
                  ++ T "AC" ++ CR :: T "GT" ++ TAB :: join_tab (tl sample_row2)
                  ++ [CR; CR; LF; CR])
       else Some (without_CR
                    (tsv_file COLUMNS [sample_row1]
                     ++ T "AC" ++ CR :: T "GT" ++ TAB
                        :: join_tab (tl sample_row2)
                     ++ [CR; CR; LF; CR])))
    (T "cr.txt")
  = _generate_examples
      (fun path =>
         if text_eq_dec path (T "cr.txt")
         then Some (tsv_file COLUMNS [sample_row1]
                    ++ T "AC" ++ CR :: T "GT" ++ TAB :: join_tab (tl sample_row2)
                    ++ [CR; CR; LF; CR])
         else Some (without_CR
                      (tsv_file COLUMNS [sample_row1]
                       ++ T "AC" ++ CR :: T "GT" ++ TAB
                          :: join_tab (tl sample_row2)
                       ++ [CR; CR; LF; CR])))
      (T "clean.txt").
Proof.
  apply (carriage_returns_ignored _ (T "cr.txt") (T "clean.txt")
           (tsv_file COLUMNS [sample_row1]
            ++ T "AC" ++ CR :: T "GT" ++ TAB :: join_tab (tl sample_row2)
            ++ [CR; CR; LF; CR])).
  - reflexivity.
  - reflexivity.
Defined.

(** * Failures in the middle of a file *)

Lemma parse_line_feed_error (a b : text) :
  forall (self : ReaderObj) (err : exn),
    feed self a = inl err -> parse_line excel_tab self (a ++ b) = inl err.
Proof.
  induction a as [|c a IH]; intros self err H; simpl in *.
  - discriminate.
  - destruct (N.eqb c NUL); [exact H|].
    destruct (parse_process_char excel_tab self c); simpl in *;
      [exact H | eauto].
Qed.

Lemma readlines_from_acc (pre rest : text) :
  forall cur : text,
    forallb line_char pre = true ->
    readlines_from cur (pre ++ rest) = readlines_from (cur ++ pre) rest.
Proof.
  induction pre as [|c pre IH]; intros cur H.
  - cbn [app]. now rewrite app_nil_r.
  - cbn [forallb] in H. apply andb_true_iff in H. destruct H as [Hc Hp].
    destruct (line_char_spec c Hc) as [Hlf Hcr].
    cbn [app readlines_from]. rewrite Hlf, Hcr.
    rewrite IH by exact Hp. now rewrite <- app_assoc.
Qed.

Lemma readlines_from_first (rest : text) :
  forall cur : text,
    cur <> [] ->
    exists x more, readlines_from cur rest = (cur ++ x) :: more.
Proof.
  induction rest as [|c rest IH]; intros cur Hne; cbn [readlines_from].
  - destruct cur; [congruence|]. exists [], []. now rewrite app_nil_r.
  - destruct (N.eqb c LF); [eauto|].
    destruct (N.eqb c CR); [apply IH; exact Hne|].
    destruct (IH (cur ++ [c])) as (x & more & E).
    + intros H. apply app_eq_nil in H. destruct H. discriminate.
    + exists (c :: x), more. rewrite E. now rewrite <- app_assoc.
Qed.

(** When the reader fails on the first characters of a text, it fails on
    the first line, whatever follows. *)
Lemma reader_fails_on_prefix (pre rest : text) (err : exn) :
  pre <> [] ->
  forallb line_char pre = true ->
  feed parse_reset pre = inl err ->
  csv_reader excel_tab (GFile_lines (pre ++ rest), StopIteration)
  = ([], Raised err).
Proof.
  intros Hne Hno Hfeed. unfold csv_reader, GFile_lines. cbn [fst snd].
  rewrite (readlines_from_acc pre rest [] Hno). cbn [app].
  destruct (readlines_from_first rest pre Hne) as (x & more & ->).
  cbn [Reader_iter].
  now rewrite (parse_line_feed_error pre x parse_reset err Hfeed).
Qed.

Lemma feed_start_record (c : char) (rest : text) :
  is_newline c = false ->
  feed parse_reset (c :: rest)
  = feed (Build_ReaderObj START_FIELD [] []) (c :: rest).
Proof.
  intros Hnl. cbn [feed].
  destruct (N.eqb c NUL) eqn:Hnul; [reflexivity|].
  unfold parse_process_char. cbn [state parse_reset]. rewrite Hnul, Hnl.
  reflexivity.
Qed.

Lemma feed_oversized_field (f : text) (c : char) :
  plain_field f = true ->
  N.of_nat (length f) = field_limit ->
  plain_char c = true ->
  feed parse_reset (f ++ [c])
  = inl (csv_Error "field larger than field limit (131072)").
Proof.
  intros Hf Hlen Hc.
  destruct f as [|a f]; [discriminate|].
  destruct (plain_field_spec _ Hf) as (Hchars & _ & _).
  simpl in Hchars. apply andb_true_iff in Hchars. destruct Hchars as [Ha _].
  destruct (plain_char_spec a Ha) as (_ & Hlf & Hcr & _).
  destruct (plain_char_spec c Hc) as (Hctab & Hclf & Hccr & Hcnul).
  change ((a :: f) ++ [c]) with (a :: (f ++ [c])).
  rewrite feed_start_record by (unfold is_newline; now rewrite Hlf, Hcr).
  change (a :: (f ++ [c])) with ((a :: f) ++ [c]).
  rewrite (feed_app (a :: f) [c] _ _ (feed_plain_field (a :: f) [] Hf)).
  cbn [feed]. rewrite Hcnul.
  unfold parse_process_char, is_newline. cbn [state delimiter excel_tab].
  rewrite Hclf, Hccr, Hcnul, Hctab. cbn [orb].
  unfold parse_add_char. cbn [field].
  rewrite Hlen, N.leb_refl. reflexivity.
Qed.

(** A field longer than the reader's field limit of 131072 characters
    makes the reader fail: the records of the rows before it stay, and the
    enumeration ends in a [csv.Error]. *)
Theorem oversized_field_aborts_enumeration
        (fs : filesystem) (filename : text)
        (header : list text) (prior : list (list text))
        (f : text) (c : char) (rest : text) :
  fs filename = Some (tsv_file header prior ++ f ++ c :: rest) ->
  Permutation header COLUMNS ->
  forallb data_line prior = true ->
  plain_field f = true ->
  N.of_nat (length f) = field_limit ->
  plain_char c = true ->
  _generate_examples fs filename
  = (numbered header (filter nonempty prior),
     Raised (csv_Error "field larger than field limit (131072)")).
Proof.
  intros Hfs Hh Hp Hf Hlen Hc. rewrite (_generate_examples_present _ _ _ Hfs).
  rewrite tsv_file_written.
  rewrite (generate_written_prefix header _ _ Hh (data_lines_valid prior Hp)).
  rewrite unquote_Unquoted_rows.
  replace (f ++ c :: rest) with ((f ++ [c]) ++ rest)
    by (rewrite <- app_assoc; reflexivity).
  rewrite (reader_fails_on_prefix (f ++ [c]) rest
             (csv_Error "field larger than field limit (131072)")).
  - simpl. now rewrite app_nil_r.
  - intros H. apply app_eq_nil in H. destruct H. discriminate.
  - rewrite forallb_app. cbn [forallb].
    rewrite (plain_char_line_char c Hc). cbn [andb]. rewrite andb_true_r.
    destruct (plain_field_spec f Hf) as (Hall & _ & _).
    apply forallb_forall. intros x Hx. rewrite forallb_forall in Hall.
    apply plain_char_line_char, Hall, Hx.
  - apply feed_oversized_field; assumption.
Qed.

Lemma oversized_field_aborts_enumeration_witness :
  _generate_examples
    (sample_fs (tsv_file COLUMNS [sample_row1]
                ++ sample_longest_field ++ 65%N :: tsv_line [T "3"]))
    sample_path
  = (numbered COLUMNS (filter nonempty [sample_row1]),
     Raised (csv_Error "field larger than field limit (131072)")).
Proof.
  apply (oversized_field_aborts_enumeration _ sample_path COLUMNS
           [sample_row1] sample_longest_field 65%N (tsv_line [T "3"])).
  - reflexivity.
  - apply Permutation_refl.
  - reflexivity.
  - vm_compute. reflexivity.
  - vm_compute. reflexivity.
  - reflexivity.
Defined.

(** * Headers that do not name the five columns *)

(** The lookups of the loop body go through the columns in order and fail
    at the first one the field names lack. *)
Lemma make_example_first_missing (fieldnames row : list text) (col : text) :
  first_missing fieldnames = Some col ->
  make_example (DictReader_row fieldnames row) = inl (KeyError col).
Proof.
  unfold first_missing, COLUMNS, make_example, getitem. cbn [find].
  repeat
    match goal with
    | |- context [in_dec text_eq_dec ?c fieldnames] =>
        destruct (in_dec text_eq_dec c fieldnames) as [Hin|Hnin];
        [ let Hb := fresh "Hb" in
          pose proof (DictReader_row_bound fieldnames row c Hin) as Hb;
          let E := fresh "E" in
          destruct (dict_get (DictReader_row fieldnames row) (PyStr c)) eqn:E;
          [clear Hb Hin E; cbn [bind] | exfalso; apply Hb; reflexivity]
        | rewrite (DictReader_row_unbound fieldnames row c Hnin);
          intros H; injection H as <-; reflexivity ]
    end.
  discriminate.
Qed.

(** When the header is a line of plain field names that lacks one of the
    five columns, the first data row raises a [KeyError] for the first
    missing column, in the order in which the generator looks the columns
    up, and no record is yielded. *)
Theorem missing_column_raises_KeyError
        (fs : filesystem) (filename : text)
        (header : list text) (lines : list (list text)) (col : text) :
  fs filename = Some (tsv_file header lines) ->
  data_line header = true ->
  forallb data_line lines = true ->
  filter nonempty lines <> [] ->
  first_missing header = Some col ->
  _generate_examples fs filename = ([], Raised (KeyError col)).
Proof.
  intros Hfs Hh Hl Hne Hmiss. rewrite (_generate_examples_present _ _ _ Hfs).
  assert (Hall : forallb data_line (header :: lines) = true)
    by (simpl; now rewrite Hh, Hl).
  unfold generate_examples_of, generate_examples_from, tsv_file, DictReader.
  rewrite (GFile_lines_tsv _ Hall), (csv_reader_data_lines _ Hall).
  clear Hfs Hl Hall.
  induction lines as [|r lines IH]; [exfalso; apply Hne; reflexivity|].
  destruct r as [|f r].
  - simpl in *. apply IH. exact Hne.
  - change (DictReader_rows header ((f :: r) :: lines))
      with (DictReader_row header (f :: r) :: DictReader_rows header lines).
    simpl. now rewrite (make_example_first_missing header (f :: r) col Hmiss).
Qed.

Lemma missing_column_raises_KeyError_witness :
  _generate_examples
    (sample_fs (tsv_file [T "seq"; T "label"; T "seq_info"; T "domain"]
                         [[]; sample_short_row; sample_short_row]))
    sample_path
  = ([], Raised (KeyError (T "label_id"))).
Proof.
  apply (missing_column_raises_KeyError _ sample_path
           [T "seq"; T "label"; T "seq_info"; T "domain"]
           [[]; sample_short_row; sample_short_row] (T "label_id")).
  - reflexivity.
  - reflexivity.
  - reflexivity.
  - discriminate.
  - reflexivity.
Defined.

(** * Rows longer than the header *)

Lemma record_of_row_firstn (header row : list text) :
  record_of_row header (firstn (length header) row)
  = record_of_row header row.
Proof.
  unfold record_of_row. apply map_ext. intros col. f_equal. unfold cell.
  destruct (position col header) as [j|] eqn:Hj; [|reflexivity].
  apply position_nth in Hj.
  assert (Hlt : j < length header) by (apply nth_error_Some; congruence).
  rewrite nth_error_firstn.
  apply Nat.ltb_lt in Hlt. now rewrite Hlt.
Qed.

Lemma plain_row_firstn (n : nat) (r : list text) :
  2 <= n -> plain_row r = true -> plain_row (firstn n r) = true.
Proof.
  intros Hn H. unfold plain_row in *.
  apply andb_true_iff in H. destruct H as [Hall Hnb].
  apply andb_true_iff. split.
  - apply forallb_forall. intros x Hx.
    rewrite forallb_forall in Hall.
    apply Hall. rewrite <- (firstn_skipn n r). apply in_or_app. now left.
  - destruct n as [|[|n]]; try lia.
    destruct r as [|a [|b r]]; try discriminate; [exact Hnb|].
    simpl. destruct a; reflexivity.
Qed.

(** The fields a row has beyond the last column of the header are
    dropped: the row gives the record of its fields under the header, as
    if the surplus were not there, and no error is raised. *)
Theorem surplus_fields_ignored
        (fs : filesystem) (filename1 filename2 : text)
        (header : list text) (rows : list (list text)) :
  Permutation header COLUMNS ->
  forallb plain_row rows = true ->
  fs filename1 = Some (tsv_file header rows) ->
  fs filename2 = Some (tsv_file header (map (firstn (length header)) rows)) ->
  _generate_examples fs filename1 = _generate_examples fs filename2
  /\ snd (_generate_examples fs filename1) = StopIteration
  /\ length (fst (_generate_examples fs filename1)) = length rows.
Proof.
  intros Hh Hr H1 H2.
  assert (Hr' : forallb plain_row (map (firstn (length header)) rows) = true).
  { apply forallb_forall. intros x Hx.
    apply in_map_iff in Hx. destruct Hx as (r & <- & Hin).
    rewrite forallb_forall in Hr.
    apply plain_row_firstn; [|exact (Hr r Hin)].
    rewrite (Permutation_length Hh). simpl. lia. }
  rewrite (generate_plain_rows fs filename1 header rows H1 Hh Hr).
  rewrite (generate_plain_rows fs filename2 header _ H2 Hh Hr').
  split; [|split; [reflexivity | simpl; apply numbered_length]].
  f_equal. unfold numbered. rewrite length_map, map_map. f_equal.
  apply map_ext. intros r. symmetry. apply record_of_row_firstn.
Qed.

Lemma surplus_fields_ignored_witness :
  _generate_examples
    (fun path => if text_eq_dec path (T "long.txt")
                 then Some (tsv_file COLUMNS [sample_long_row; sample_row2])
                 else Some (tsv_file COLUMNS
                              (map (firstn (length COLUMNS))
                                   [sample_long_row; sample_row2])))
    (T "long.txt")
  = _generate_examples
      (fun path => if text_eq_dec path (T "long.txt")
                   then Some (tsv_file COLUMNS [sample_long_row; sample_row2])
                   else Some (tsv_file COLUMNS
                                (map (firstn (length COLUMNS))
                                     [sample_long_row; sample_row2])))
      (T "cut.txt")
  /\ snd (_generate_examples
            (fun path => if text_eq_dec path (T "long.txt")
                 then Some (tsv_file COLUMNS [sample_long_row; sample_row2])
                 else Some (tsv_file COLUMNS
                              (map (firstn (length COLUMNS))
                                   [sample_long_row; sample_row2])))
            (T "long.txt")) = StopIteration
  /\ length (fst (_generate_examples
            (fun path => if text_eq_dec path (T "long.txt")
                 then Some (tsv_file COLUMNS [sample_long_row; sample_row2])
                 else Some (tsv_file COLUMNS
                              (map (firstn (length COLUMNS))
                                   [sample_long_row; sample_row2])))
            (T "long.txt"))) = 2.
Proof.
  apply (surplus_fields_ignored _ (T "long.txt") (T "cut.txt") COLUMNS
           [sample_long_row; sample_row2]).
  - apply Permutation_refl.
  - reflexivity.
  - reflexivity.
  - reflexivity.
Defined.

(** * How many records a file can give *)

Lemma Reader_iter_length (lines : list text) (e : ending) :
  (forall self : ReaderObj,
      length (fst (Reader_iter excel_tab self lines e)) <= S (length lines))
  /\ length (fst (Reader_iter excel_tab parse_reset lines e)) <= length lines.
Proof.
  induction lines as [|line lines [IHany IHreset]].
  - split.
    + intros self. cbn [Reader_iter]. destruct e; [|simpl; lia].
      destruct (negb (length (field self) =? 0)
                || ParserState_eqb (state self) IN_QUOTED_FIELD); simpl; lia.
    + destruct e; simpl; lia.
  - assert (Hany : forall self : ReaderObj,
               length (fst (Reader_iter excel_tab self (line :: lines) e))
               <= S (length lines)).
    { intros self. cbn [Reader_iter].
      destruct (parse_line excel_tab self line) as [err|self']; [simpl; lia|].
      destruct (ParserState_eqb (state self') START_RECORD).
      - destruct (Reader_iter excel_tab parse_reset lines e) as [rows e'].
        simpl in *. lia.
      - apply IHany. }
    split.
    + intros self. specialize (Hany self). simpl length in *. lia.
    + apply Hany.
Qed.

Lemma DictReader_rows_length (fieldnames : list text)
      (rows : list (list text)) :
  length (DictReader_rows fieldnames rows) <= length rows.
Proof.
  induction rows as [|r rows IH]; [simpl; lia|].
  destruct r; simpl in *; lia.
Qed.

Lemma generate_from_length (rows : list dict) :
  forall (n : nat) (e : ending),
    length (fst (generate_from n rows e)) <= length rows.
Proof.
  induction rows as [|row rows IH]; intros n e; simpl; [lia|].
  destruct (make_example row); [simpl; lia|].
  specialize (IH (S n) e).
  destruct (generate_from (S n) rows e). simpl in *. lia.
Qed.

(** Whatever the file, the parser yields at most one record for each line
    after the first: the line of the field names gives no record, and no
    line gives more than one. *)
Theorem records_bounded_by_lines
        (fs : filesystem) (filename contents : text) :
  fs filename = Some contents ->
  length (fst (_generate_examples fs filename))
  <= pred (length (GFile_lines contents)).
Proof.
  intros Hfs. rewrite (_generate_examples_present _ _ _ Hfs).
  unfold generate_examples_of, generate_examples_from, DictReader, csv_reader.
  cbn [fst snd].
  destruct (Reader_iter_length (GFile_lines contents) StopIteration)
    as [_ Hlen].
  destruct (Reader_iter excel_tab parse_reset (GFile_lines contents)
                        StopIteration)
    as [[|fieldnames rows] e]; simpl in *; [lia|].
  pose proof (generate_from_length (DictReader_rows fieldnames rows) 0 e).
  pose proof (DictReader_rows_length fieldnames rows).
  lia.
Qed.

Lemma records_bounded_by_lines_witness :
  length (fst (_generate_examples blank_lines_fs sample_path))
  <= pred (length (GFile_lines
                     (tsv_file COLUMNS
                        [[]; sample_row1; []; []; sample_row2; []]))).
Proof.
  apply (records_bounded_by_lines blank_lines_fs sample_path).
  reflexivity.
Defined.

(** * The files of the splits *)

Lemma os_path_join_relative (a b : text) :
  startswith SLASH b = false ->
  os_path_join a b
  = a ++ match a with
         | [] => []
         | _ => if endswith SLASH a then [] else [SLASH]
         end ++ b.
Proof.
  intros H. unfold os_path_join. rewrite H.
  destruct a as [|c a]; [reflexivity|].
  destruct (endswith SLASH (c :: a)); reflexivity.
Qed.

(** Whatever the root directory, the five splits have five different names
    and are bound to five different paths: no two splits read one file. *)
Theorem split_paths_distinct (dl_manager : text -> text) :
  NoDup (map name (_split_generators dl_manager))
  /\ NoDup (map filename (_split_generators dl_manager)).
Proof.
  split.
  - simpl. repeat constructor; simpl; intros H;
      repeat (destruct H as [H|H]; [discriminate|]); exact H.
  - unfold _split_generators. cbn [map filename].
    rewrite !os_path_join_relative by reflexivity.
    set (p := dl_manager _DOWNLOAD_URL
              ++ match dl_manager _DOWNLOAD_URL with
                 | [] => []
                 | _ => if endswith SLASH (dl_manager _DOWNLOAD_URL)
                        then [] else [SLASH]
                 end).
    rewrite !app_assoc. fold p.
    repeat constructor; cbn [In]; intros H;
      repeat (destruct H as [H|H];
              [apply app_inv_head in H; discriminate|]);
      exact H.
Qed.
